(** * The NGINX ingress controller: sizing, validation and reload decision

    A shallow embedding of [controllers/nginx/pkg/cmd/controller/nginx.go].

    - Go's [int] is modelled as [Z] with the 64-bit two's-complement
      wrap-around written out ([wrap]).
    - [[]byte] is [list byte], Go strings are [string].
    - The file system, the external commands and their failures are an
      explicit [World] threaded through a small state monad; what the
      operating system decides (which call fails, what a command prints) is
      read from an [Env] record.
    - [glog] calls and [Close] on file handles have no effect on any value
      the controller computes and are left out. *)

From Stdlib Require Import ZArith Lia Bool List.
From Stdlib.Strings Require Import Ascii String Byte.
From stdpp Require Import base gmap strings list.

Local Open Scope Z_scope.

(** ** Go's [int] on a 64-bit platform *)

Module GoInt.

Definition minInt : Z := - 2 ^ 63.
Definition maxInt : Z := 2 ^ 63 - 1.

(** Two's-complement wrap-around of the result of [+], [-], [++], [--]. *)
Definition wrap (x : Z) : Z := (x + 2 ^ 63) mod 2 ^ 64 - 2 ^ 63.

Definition in_range (x : Z) : Prop := minInt <= x <= maxInt.

End GoInt.

Import GoInt.

(** ** Capacity sizing: [nextPowerOf2] *)

(** [v |= v >> s] on a signed [int]: [>>] is the arithmetic shift. *)
Definition or_shift (s v : Z) : Z := Z.lor v (Z.shiftr v s).

(** The five [v |= v >> k] lines of [nextPowerOf2]. *)
Definition smear (v : Z) : Z :=
  let v := or_shift 1 v in
  let v := or_shift 2 v in
  let v := or_shift 4 v in
  let v := or_shift 8 v in
  let v := or_shift 16 v in
  v.

Definition nextPowerOf2 (v : Z) : Z :=
  let v := wrap (v - 1) in
  let v := smear v in
  let v := wrap (v + 1) in
  v.

(** What the specification calls the power-of-two ceiling of [n]. *)
Definition is_pow2 (p : Z) : Prop := exists k, 0 <= k /\ p = 2 ^ k.

Definition pow2_ceiling (n p : Z) : Prop :=
  is_pow2 p /\ n <= p /\ forall q, is_pow2 q -> n <= q -> p <= q.

(** Bits [k-m+1 .. k] of [v] are set and nothing above bit [k] is. *)
Definition top_run (k m v : Z) : Prop :=
  0 <= v < 2 ^ (k + 1) /\
  forall i, 0 <= i -> k - m < i <= k -> Z.testbit v i = true.

(** ** Errors

    The dynamic types behind Go's [error] interface that reach this file:
    errors made by the [os], [io/ioutil] and [os/exec] packages, and errors
    made here with [errors.New] and [fmt.Errorf]. *)

Inductive error : Type :=
  | OsError (msg : string)
  | ErrorString (msg : string).

(** The [Error()] method, which is what [%v] prints. *)
Definition Error (e : error) : string :=
  match e with OsError m => m | ErrorString m => m end.

Definition errors_New (msg : string) : error := ErrorString msg.
Definition fmt_Errorf (msg : string) : error := ErrorString msg.

#[global] Instance byte_eq_decision : EqDecision byte := byte_eq_dec.

Definition bytes_Equal (a b : list byte) : bool := bool_decide (a = b).

(** [len] of a byte slice and of a string, as a Go [int]. *)
Definition len_bytes (b : list byte) : Z := Z.of_nat (List.length b).
Definition len_string (s : string) : Z := Z.of_nat (String.length s).

(** ** The world: files, effects, and what the environment decides *)

Inductive Event : Type :=
  | EvCreate (path : string)
  | EvWrite (path : string) (data : list byte)
  | EvRemove (path : string)
  | EvExec (argv : list string).

(** [trace] lists the effects performed, newest first; [clock] counts the
    system calls made, so that the environment may answer two identical
    calls differently. *)
Record World : Type := mkWorld {
  files : gmap string (list byte);
  trace : list Event;
  clock : nat
}.

(** [ioutil.WriteFile] can fail before touching the file or after a short
    write that leaves a prefix of the data behind. *)
Inductive WriteOutcome : Type :=
  | WriteOk
  | WriteOpenError (msg : string)
  | WriteShort (n : nat) (msg : string).

(** What the operating system decides.  Every answer may depend on the
    world at the time of the call: [open_err], [read_err] and [remove_err]
    give the message of a failing call; [tempfile_res] gives a failure or the
    random number behind the new name; [run_res] gives the combined output
    of a command and, for a non-zero exit or a failed start, the error. *)
Record Env : Type := mkEnv {
  tmpDir : string;
  open_err : World -> string -> option string;
  read_err : World -> string -> option string;
  tempfile_res : World -> string -> string + N;
  write_res : World -> string -> list byte -> WriteOutcome;
  remove_err : World -> string -> option string;
  run_res : World -> list string -> list byte * option string
}.

(** State passing: every operation takes the world and returns the next. *)
Definition M (A : Type) : Type := World -> A * World.

#[global] Instance M_ret : MRet M := fun A a w => (a, w).
#[global] Instance M_bind : MBind M :=
  fun A B f m w => let (a, w') := m w in f a w'.

Definition run {A} (m : M A) (w : World) : A * World := m w.
Definition result {A} (m : M A) (w : World) : A := fst (m w).
Definition after {A} (m : M A) (w : World) : World := snd (m w).

Definition step (f : gmap string (list byte) -> gmap string (list byte))
    (evs : list Event) (w : World) : World :=
  {| files := f (files w); trace := evs ++ trace w; clock := S (clock w) |}.

Definition LF : string := String "010"%char EmptyString.

Definition digit (d : N) : ascii := ascii_of_N (48 + d mod 10).

(** The last [k] decimal digits of [r]. *)
Fixpoint decimal (k : nat) (r : N) : string :=
  match k with
  | O => EmptyString
  | S k' => decimal k' (r / 10) +:+ String (digit r) EmptyString
  end.

(** [ioutil]'s [nextSuffix]: nine decimal digits. *)
Definition nextSuffix (r : N) : string := decimal 9 r.

Section OS.

Variable E : Env.

(** [os.Open]: the handle is the name; a missing file is an error. *)
Definition os_Open (name : string) : M (string * option error) := fun w =>
  match files w !! name with
  | None =>
      ((name, Some (OsError ("open " +:+ name +:+ ": no such file or directory"))),
       step id [] w)
  | Some _ =>
      match open_err E w name with
      | Some m => ((name, Some (OsError m)), step id [] w)
      | None => ((name, None), step id [] w)
      end
  end.

Definition ioutil_ReadAll (handle : string) : M (list byte * option error) := fun w =>
  match read_err E w handle with
  | Some m => (([], Some (OsError m)), step id [] w)
  | None => ((default [] (files w !! handle), None), step id [] w)
  end.

(** [ioutil.TempFile(dir, prefix)]: a new file named [prefix] followed by
    nine digits, in [dir] or in the default temporary directory; creation
    is exclusive, and running out of fresh names is a failure. *)
Definition ioutil_TempFile (dir prefix : string) : M (string * option error) := fun w =>
  match tempfile_res E w prefix with
  | inl m => ((EmptyString, Some (OsError m)), step id [] w)
  | inr r =>
      let d := if decide (dir = EmptyString) then tmpDir E else dir in
      let name := d +:+ "/" +:+ prefix +:+ nextSuffix r in
      match files w !! name with
      | Some _ => ((EmptyString, Some (OsError "file exists")), step id [] w)
      | None => ((name, None), step (insert name []) [EvCreate name] w)
      end
  end.

Definition ioutil_WriteFile (filename : string) (data : list byte)
    : M (option error) := fun w =>
  match write_res E w filename data with
  | WriteOk =>
      (None, step (insert filename data) [EvWrite filename data] w)
  | WriteOpenError m =>
      (Some (OsError m), step id [EvWrite filename data] w)
  | WriteShort n m =>
      (Some (OsError m),
       step (insert filename (take n data)) [EvWrite filename data] w)
  end.

Definition os_Remove (name : string) : M (option error) := fun w =>
  match remove_err E w name with
  | Some m => (Some (OsError m), step id [EvRemove name] w)
  | None => (None, step (delete name) [EvRemove name] w)
  end.

(** [exec.Command(...).CombinedOutput()]; the commands this controller
    runs ([nginx -t], [nginx -s reload]) do not write to the files it
    manages. *)
Definition CombinedOutput (argv : list string) : M (list byte * option error) := fun w =>
  let (out, e) := run_res E w argv in
  ((out, OsError <$> e), step id [EvExec argv] w).

End OS.

(** ** Data the controller receives

    [api.ConfigMap], [ingress.Server], [ingress.Configuration],
    [config.Configuration] and [config.TemplateConfig] are declared in other
    packages.  They are given the fields this file reads or sets; what it
    only passes on is carried as [Opaque] values. *)

Definition Opaque : Type := list string.

Definition ConfigMap : Type := gmap string string.

Record Server : Type := mkServer {
  Hostname : string;
  Locations : Opaque
}.

Module ingress.
Record Configuration : Type := mkConfiguration {
  Backends : Opaque;
  Servers : list Server;
  TCPEndpoints : Opaque;
  UPDEndpoints : Opaque;
  PassthroughBackends : Opaque
}.
End ingress.

Module config.
Record Configuration : Type := mkConfiguration {
  CustomHTTPErrors : list Z;
  ServerNameHashMaxSize : Z;
  ServerNameHashBucketSize : Z
}.

Record TemplateConfig : Type := mkTemplateConfig {
  BacklogSize : Z;
  Backends : Opaque;
  PassthrougBackends : Opaque;
  Servers : list Server;
  TCPBackends : Opaque;
  UDPBackends : Opaque;
  HealthzURI : string;
  CustomErrors : bool;
  Cfg : Configuration
}.
End config.

(** Functions of this repository that [nginx.go] calls and that live in
    other files: [ReadConfig] (template package), [sysctlSomaxconn] and
    [diff] (same package).  They are parameters of the development; [diff]
    may do anything to the world. *)
Record Pkg : Type := mkPkg {
  ReadConfig : ConfigMap -> config.Configuration;
  sysctlSomaxconn : World -> Z;
  diff : list byte -> list byte -> M (list byte * option error)
}.

(** Modelled from the spec: the renderer [ngx_template.Template], whose
    source is not part of this file.  The specification treats it as a pure
    function from the template configuration to configuration bytes. *)
Record Template : Type := mkTemplate {
  render : config.TemplateConfig -> list byte
}.

(** Modelled from the spec: [Template.Write], missing with the template
    package.  Render candidate bytes, validate them with the callback; on
    invalid return the callback's error and no bytes, otherwise return the
    candidate. *)
Definition Template_Write (t : Template) (conf : config.TemplateConfig)
    (isValidTemplate : list byte -> M (option error))
    : M (list byte * option error) :=
  let content := render t conf in
  err ← isValidTemplate content;
  match err with
  | Some e => mret ([], Some e)
  | None => mret (content, None)
  end.

(** ** The controller *)

Definition tmplPath : string := "/etc/nginx/template/nginx.tmpl".
Definition cfgPath : string := "/etc/nginx/nginx.conf".

Record NGINXController : Type := mkNGINXController {
  t : Template;
  binary : string
}.

Definition rule : string :=
  "-------------------------------------------------------------------------------".

(** The message built by [fmt.Sprintf] in [testTemplate]. *)
Definition invalidMessage (err : error) (out : list byte) : string :=
  LF +:+ rule +:+ LF +:+
  "Error: " +:+ Error err +:+ LF +:+
  string_of_list_byte out +:+ LF +:+
  rule +:+ LF.

(** The loop of [OnUpdate] over the servers: one iteration. *)
Definition countName (acc : Z * Z) (srv : Server) : Z * Z :=
  let '(longestName, serverNames) := acc in
  let serverNames := wrap (serverNames + len_bytes (list_byte_of_string (Hostname srv))) in
  let longestName :=
    if longestName <? len_string (Hostname srv)
    then len_string (Hostname srv) else longestName in
  (longestName, serverNames).

(** The two [if ... > cfg....] adjustments of [OnUpdate]. *)
Definition adjustSizes (longestName serverNames : Z) (cfg : config.Configuration)
    : config.Configuration :=
  let nameHashBucketSize := nextPowerOf2 longestName in
  let cfg :=
    if nameHashBucketSize >? config.ServerNameHashBucketSize cfg
    then {| config.CustomHTTPErrors := config.CustomHTTPErrors cfg;
            config.ServerNameHashMaxSize := config.ServerNameHashMaxSize cfg;
            config.ServerNameHashBucketSize := nameHashBucketSize |}
    else cfg in
  let serverNameHashMaxSize := nextPowerOf2 serverNames in
  let cfg :=
    if serverNameHashMaxSize >? config.ServerNameHashMaxSize cfg
    then {| config.CustomHTTPErrors := config.CustomHTTPErrors cfg;
            config.ServerNameHashMaxSize := serverNameHashMaxSize;
            config.ServerNameHashBucketSize := config.ServerNameHashBucketSize cfg |}
    else cfg in
  cfg.

Section Controller.

Variable E : Env.
Variable P : Pkg.

Definition Test (n : NGINXController) (file : string) : list string :=
  [binary n; "-t"; "-c"; file].

Definition isReloadRequired (n : NGINXController) (data : list byte) : M bool :=
  '(in_, err) ← os_Open E cfgPath;
  match err with Some _ => mret false | None =>
  '(src, err) ← ioutil_ReadAll E in_;
  match err with Some _ => mret false | None =>
  if negb (bytes_Equal src data) then
    '(tmpfile, err) ← ioutil_TempFile E "" "nginx-cfg-diff";
    match err with Some _ => mret false | None =>
    err ← ioutil_WriteFile E tmpfile data;
    match err with Some _ => mret false | None =>
    '(diffOutput, err) ← diff P src data;
    match err with Some _ => mret true | None =>
    mret (0 <? len_bytes diffOutput)
    end end end
  else mret false
  end end.

Definition Reload (n : NGINXController) (data : list byte)
    : M (list byte * option error) :=
  required ← isReloadRequired n data;
  if negb required then mret ([], Some (fmt_Errorf "Reload not required")) else
  err ← ioutil_WriteFile E cfgPath data;
  match err with
  | Some e => mret ([], Some e)
  | None => CombinedOutput E [binary n; "-s"; "reload"]
  end.

Definition testTemplate (n : NGINXController) (cfg : list byte) : M (option error) :=
  '(tmpfile, err) ← ioutil_TempFile E "" "nginx-cfg";
  match err with Some e => mret (Some e) | None =>
  _ ← ioutil_WriteFile E tmpfile cfg;
  '(out, err) ← CombinedOutput E (Test n tmpfile);
  match err with
  | Some e => mret (Some (errors_New (invalidMessage e out)))
  | None =>
      _ ← os_Remove E tmpfile;
      mret None
  end end.

(** The [config.TemplateConfig] literal of [OnUpdate]. *)
Definition templateConfig (ingressCfg : ingress.Configuration)
    (backlog : Z) (cfg : config.Configuration) : config.TemplateConfig :=
  {| config.BacklogSize := backlog;
     config.Backends := ingress.Backends ingressCfg;
     config.PassthrougBackends := ingress.PassthroughBackends ingressCfg;
     config.Servers := ingress.Servers ingressCfg;
     config.TCPBackends := ingress.TCPEndpoints ingressCfg;
     config.UDPBackends := ingress.UPDEndpoints ingressCfg;
     config.HealthzURI := "/healthz";
     config.CustomErrors := 0 <? Z.of_nat (List.length (config.CustomHTTPErrors cfg));
     config.Cfg := cfg |}.

(** The configuration [OnUpdate] hands to the template. *)
Definition effectiveCfg (cmap : ConfigMap) (ingressCfg : ingress.Configuration)
    : config.Configuration :=
  let '(longestName, serverNames) :=
    fold_left countName (ingress.Servers ingressCfg) (0, 0) in
  let cfg := ReadConfig P cmap in
  adjustSizes longestName serverNames cfg.

Definition OnUpdate (n : NGINXController) (cmap : ConfigMap)
    (ingressCfg : ingress.Configuration) : M (list byte * option error) :=
  fun w =>
    let cfg := effectiveCfg cmap ingressCfg in
    Template_Write (t n)
      (templateConfig ingressCfg (sysctlSomaxconn P w) cfg)
      (testTemplate n) w.

End Controller.

(** Byte length of the longest hostname and of all hostnames together, as
    the specification words them. *)
Definition longestHostname (servers : list Server) : Z :=
  foldr (fun srv m => Z.max (len_string (Hostname srv)) m) 0 servers.

Definition totalHostnames (servers : list Server) : Z :=
  foldr (fun srv a => len_string (Hostname srv) + a) 0 servers.

(** The bytes [OnUpdate] asks the template to render and validate. *)
Definition candidate (P : Pkg) (n : NGINXController) (cmap : ConfigMap)
    (ingressCfg : ingress.Configuration) (w : World) : list byte :=
  render (t n)
    (templateConfig ingressCfg (sysctlSomaxconn P w) (effectiveCfg P cmap ingressCfg)).

(** What [Reload] returns when it decides against reloading. *)
Definition notRequired : list byte * option error :=
  ([], Some (fmt_Errorf "Reload not required")).

(** An assumption some statements make about the absent [diff]: it leaves
    the files as they are. *)
Definition diff_keeps_files (P : Pkg) : Prop :=
  forall a b w, files (after (diff P a b) w) = files w.

(** The first lines of [isReloadRequired] on their own: open the committed
    file and read all of it. *)
Definition readCommitted (E : Env) : M (option (list byte)) :=
  '(in_, err) ← os_Open E cfgPath;
  match err with Some _ => mret None | None =>
  '(src, err) ← ioutil_ReadAll E in_;
  match err with Some _ => mret None | None => mret (Some src) end
  end.

Fixpoint last_char (s : string) : option ascii :=
  match s with
  | EmptyString => None
  | String c EmptyString => Some c
  | String _ rest => last_char rest
  end.

(** ** Concrete environments, used to run the controller *)

Module Scenario.

(** Nothing fails; commands print nothing and exit with status 0. *)
Definition quiet : Env :=
  {| tmpDir := "/tmp";
     open_err := fun _ _ => None;
     read_err := fun _ _ => None;
     tempfile_res := fun w _ => inr (N.of_nat (clock w));
     write_res := fun _ _ _ => WriteOk;
     remove_err := fun _ _ => None;
     run_res := fun _ _ => ([], None) |}.

(** No temporary file can be created. *)
Definition noTemp : Env :=
  {| tmpDir := "/tmp";
     open_err := fun _ _ => None;
     read_err := fun _ _ => None;
     tempfile_res := fun _ _ => inl "open /tmp/nginx-cfg: no space left on device";
     write_res := fun _ _ _ => WriteOk;
     remove_err := fun _ _ => None;
     run_res := fun _ _ => ([], None) |}.

(** Temporary files are created but cannot be written. *)
Definition noTempWrite : Env :=
  {| tmpDir := "/tmp";
     open_err := fun _ _ => None;
     read_err := fun _ _ => None;
     tempfile_res := fun w _ => inr (N.of_nat (clock w));
     write_res := fun _ name _ =>
       if decide (name = cfgPath) then WriteOk
       else WriteOpenError "permission denied";
     remove_err := fun _ _ => None;
     run_res := fun _ _ => ([], None) |}.

(** The checker rejects every file. *)
Definition rejecting : Env :=
  {| tmpDir := "/tmp";
     open_err := fun _ _ => None;
     read_err := fun _ _ => None;
     tempfile_res := fun w _ => inr (N.of_nat (clock w));
     write_res := fun _ _ _ => WriteOk;
     remove_err := fun _ _ => None;
     run_res := fun _ _ =>
       (list_byte_of_string "nginx: [emerg] unexpected end of file",
        Some "exit status 1") |}.

(** The committed path cannot be written; temporary files can. *)
Definition noCommit : Env :=
  {| tmpDir := "/tmp";
     open_err := fun _ _ => None;
     read_err := fun _ _ => None;
     tempfile_res := fun w _ => inr (N.of_nat (clock w));
     write_res := fun _ name _ =>
       if decide (name = cfgPath) then WriteOpenError "read-only file system"
       else WriteOk;
     remove_err := fun _ _ => None;
     run_res := fun _ _ => ([], None) |}.

Definition baseCfg : config.Configuration :=
  {| config.CustomHTTPErrors := [];
     config.ServerNameHashMaxSize := 512;
     config.ServerNameHashBucketSize := 64 |}.

(** [diff] prints something for any two inputs. *)
Definition pkg : Pkg :=
  {| ReadConfig := fun _ => baseCfg;
     sysctlSomaxconn := fun _ => 128;
     diff := fun _ _ w => ((list_byte_of_string "@@ -1 +1 @@", None), w) |}.

(** [diff] fails. *)
Definition pkgDiffFails : Pkg :=
  {| ReadConfig := fun _ => baseCfg;
     sysctlSomaxconn := fun _ => 128;
     diff := fun _ _ w => (([], Some (OsError "exec: diff: not found")), w) |}.

(** [diff] prints nothing and reports no error. *)
Definition pkgDiffSilent : Pkg :=
  {| ReadConfig := fun _ => baseCfg;
     sysctlSomaxconn := fun _ => 128;
     diff := fun _ _ w => (([], None), w) |}.

(** A renderer that prints one [server_name] line per server. *)
Definition ctl : NGINXController :=
  {| t := {| render := fun conf =>
               list_byte_of_string
                 (foldr (fun srv acc => "server_name " +:+ Hostname srv +:+ ";" +:+ acc)
                        EmptyString (config.Servers conf)) |};
     binary := "/usr/sbin/nginx" |}.

Definition oneServer : ingress.Configuration :=
  {| ingress.Backends := [];
     ingress.Servers := [ {| Hostname := "x.com"; Locations := [] |} ];
     ingress.TCPEndpoints := [];
     ingress.UPDEndpoints := [];
     ingress.PassthroughBackends := [] |}.

Definition twoServers : list Server :=
  [ {| Hostname := "a.com"; Locations := [] |};
    {| Hostname := "averyveryverylonghostname.example.com"; Locations := [] |} ].

Definition twoServersCfg : ingress.Configuration :=
  {| ingress.Backends := [];
     ingress.Servers := twoServers;
     ingress.TCPEndpoints := [];
     ingress.UPDEndpoints := [];
     ingress.PassthroughBackends := [] |}.

(** A configuration map that asks for small hash tables. *)
Definition pkgSmallBase : Pkg :=
  {| ReadConfig := fun _ =>
       {| config.CustomHTTPErrors := [];
          config.ServerNameHashMaxSize := 16;
          config.ServerNameHashBucketSize := 16 |};
     sysctlSomaxconn := fun _ => 128;
     diff := fun _ _ w => (([], None), w) |}.



Definition oldConf : list byte := list_byte_of_string "events {}".
Definition newConf : list byte := list_byte_of_string "events {} http {}".

(** First run: no committed configuration. *)
Definition fresh : World := {| files := ∅; trace := []; clock := 0 |}.

(** [oldConf] is committed. *)
Definition live : World :=
  {| files := {[ cfgPath := oldConf ]}; trace := []; clock := 0 |}.

End Scenario.

(** * Properties *)

(** ** Wrap-around *)

Lemma wrap_id x : in_range x -> wrap x = x.
Proof.
  unfold in_range, wrap, minInt, maxInt. intros H.
  rewrite Z.mod_small; lia.
Qed.

Lemma wrap_in_range x : in_range (wrap x).
Proof.
  unfold in_range, wrap, minInt, maxInt.
  pose proof (Z.mod_pos_bound (x + 2 ^ 63) (2 ^ 64) ltac:(lia)). lia.
Qed.

(** ** The bit smearing of [nextPowerOf2] *)

Section SmearFacts.

Lemma lor_below_pow2 a b n :
  0 <= n -> 0 <= a < 2 ^ n -> 0 <= b < 2 ^ n -> 0 <= Z.lor a b < 2 ^ n.
Proof.
  intros Hn Ha Hb. split; [apply Z.lor_nonneg; lia|].
  destruct (Z.eq_dec (Z.lor a b) 0) as [->|Hz]; [lia|].
  assert (0 < Z.lor a b) by (pose proof (proj2 (Z.lor_nonneg a b)); lia).
  apply Z.log2_lt_pow2; [lia|].
  rewrite Z.log2_lor by lia.
  destruct (Z.eq_dec a 0) as [->|]; destruct (Z.eq_dec b 0) as [->|];
    rewrite ?Z.lor_0_l, ?Z.lor_0_r in *; try lia.
  - change (Z.log2 0) with 0. rewrite Z.max_r by apply Z.log2_nonneg.
    apply Z.log2_lt_pow2; lia.
  - change (Z.log2 0) with 0. rewrite Z.max_l by apply Z.log2_nonneg.
    apply Z.log2_lt_pow2; lia.
  - apply Z.max_lub_lt; apply Z.log2_lt_pow2; lia.
Qed.

Lemma shiftr_below a s n :
  0 <= s -> 0 <= a < 2 ^ n -> 0 <= Z.shiftr a s < 2 ^ n.
Proof.
  intros Hs Ha. rewrite Z.shiftr_div_pow2 by lia.
  assert (0 < 2 ^ s) by (apply Z.pow_pos_nonneg; lia).
  split; [apply Z.div_pos; lia|].
  apply Z.le_lt_trans with a; [|lia].
  apply Z.div_le_upper_bound; nia.
Qed.

(** One [v |= v >> s] line widens a run of [m >= s] set bits to [m + s]. *)
Lemma or_shift_run k m s v :
  0 <= k -> 0 <= s <= m -> top_run k m v -> top_run k (m + s) (or_shift s v).
Proof.
  intros Hk Hs [Hv Hbits]. unfold or_shift. split.
  - apply lor_below_pow2; [lia|lia|apply shiftr_below; lia].
  - intros i Hi Hr. rewrite Z.lor_spec, Z.shiftr_spec by lia.
    destruct (Z_lt_le_dec (k - m) i).
    + rewrite Hbits by lia. reflexivity.
    + rewrite (Hbits (i + s)) by lia. apply orb_true_r.
Qed.

Lemma top_run_full k m v :
  0 <= k < m -> top_run k m v -> v = 2 ^ (k + 1) - 1.
Proof.
  intros Hk [Hv Hbits].
  replace (2 ^ (k + 1) - 1) with (Z.ones (k + 1)) by (rewrite Z.ones_equiv; lia).
  apply Z.bits_inj'. intros i Hi.
  destruct (Z_lt_le_dec k i).
  - rewrite Z.ones_spec_high by lia.
    destruct (Z.eq_dec v 0) as [->|]; [apply Z.bits_0|].
    apply Z.bits_above_log2; [lia|].
    apply Z.log2_lt_pow2; [lia|]. apply Z.lt_le_trans with (2 ^ (k + 1)); [lia|].
    apply Z.pow_le_mono_r; lia.
  - rewrite Z.ones_spec_low by lia. apply Hbits; lia.
Qed.

(** On a positive value below [2^32] the five lines fill every bit under
    the leading one. *)
Lemma smear_small v :
  0 < v < 2 ^ 32 -> smear v = 2 ^ (Z.log2 v + 1) - 1.
Proof.
  intros Hv. set (k := Z.log2 v).
  assert (Hk : 0 <= k < 32).
  { split; [apply Z.log2_nonneg|]. apply Z.log2_lt_pow2; lia. }
  pose proof (Z.log2_spec v ltac:(lia)) as Hlog. fold k in Hlog.
  assert (H0 : top_run k 1 v).
  { split; [replace (k + 1) with (Z.succ k) by lia; lia|].
    intros i _ Hi. replace i with k by lia. apply Z.bit_log2. lia. }
  apply (or_shift_run k 1 1) in H0; [|lia|lia].
  apply (or_shift_run k _ 2) in H0; [|lia|lia].
  apply (or_shift_run k _ 4) in H0; [|lia|lia].
  apply (or_shift_run k _ 8) in H0; [|lia|lia].
  apply (or_shift_run k _ 16) in H0; [|lia|lia].
  eapply top_run_full; [|exact H0]. lia.
Qed.

End SmearFacts.

Section NextPowerOf2.

Lemma pow2_ceiling_between n k :
  0 <= k -> 2 ^ k < n <= 2 ^ (k + 1) -> pow2_ceiling n (2 ^ (k + 1)).
Proof.
  intros Hk Hn. split; [exists (k + 1); split; [lia|reflexivity]|].
  split; [lia|]. intros q [j [Hj ->]] Hq.
  apply Z.pow_le_mono_r; [lia|].
  destruct (Z_lt_le_dec j (k + 1)) as [Hlt|]; [|lia].
  assert (2 ^ j <= 2 ^ k) by (apply Z.pow_le_mono_r; lia). lia.
Qed.

(** Between 2 and [2^32] the function is the power-of-two ceiling. *)
Lemma nextPowerOf2_ceiling n :
  2 <= n <= 2 ^ 32 -> pow2_ceiling n (nextPowerOf2 n).
Proof.
  intros Hn. unfold nextPowerOf2.
  rewrite (wrap_id (n - 1)) by (unfold in_range, minInt, maxInt; lia).
  rewrite smear_small by lia.
  set (k := Z.log2 (n - 1)).
  assert (Hk : 0 <= k < 32).
  { split; [apply Z.log2_nonneg|]. apply Z.log2_lt_pow2; lia. }
  pose proof (Z.log2_spec (n - 1) ltac:(lia)) as Hlog. fold k in Hlog.
  replace (Z.succ k) with (k + 1) in Hlog by lia.
  assert (2 ^ (k + 1) <= 2 ^ 32) by (apply Z.pow_le_mono_r; lia).
  replace (2 ^ (k + 1) - 1 + 1) with (2 ^ (k + 1)) by lia.
  rewrite wrap_id by (unfold in_range, minInt, maxInt; lia).
  apply pow2_ceiling_between; lia.
Qed.

Lemma pow2_ceiling_one n : n <= 1 -> pow2_ceiling n 1.
Proof.
  intros Hn. split; [exists 0; split; [lia|reflexivity]|].
  split; [lia|]. intros q [j [Hj ->]] _.
  change 1 with (2 ^ 0). apply Z.pow_le_mono_r; lia.
Qed.

Lemma lor_negative_lower a b : a < 0 -> b < 0 -> a <= Z.lor a b < 0.
Proof.
  intros Ha Hb. split; [|apply Z.lor_neg; lia].
  assert (Hd : Z.ldiff a (Z.lor a b) = 0).
  { apply Z.bits_inj'. intros i Hi.
    rewrite Z.ldiff_spec, Z.lor_spec, Z.bits_0.
    destruct (Z.testbit a i), (Z.testbit b i); reflexivity. }
  pose proof (Z.sub_nocarry_ldiff _ _ Hd) as Hsub.
  assert (0 <= Z.ldiff (Z.lor a b) a) by (apply Z.ldiff_nonneg; lia).
  lia.
Qed.

Lemma or_shift_negative s v :
  0 <= s -> minInt <= v < 0 -> minInt <= or_shift s v < 0.
Proof.
  intros Hs Hv. unfold or_shift.
  assert (Z.shiftr v s < 0) by (apply Z.shiftr_neg; lia).
  pose proof (lor_negative_lower v (Z.shiftr v s) ltac:(lia) ltac:(lia)). lia.
Qed.

Lemma smear_negative v : minInt <= v < 0 -> minInt <= smear v < 0.
Proof.
  intros Hv. unfold smear.
  do 5 (apply or_shift_negative; [lia|]). exact Hv.
Qed.

(** No input at or below zero is sent to a positive value. *)
Lemma nextPowerOf2_nonpos n : minInt <= n <= 0 -> nextPowerOf2 n <= 0.
Proof.
  intros Hn. destruct (Z.eq_dec n minInt) as [->|Hne].
  - vm_compute. discriminate.
  - unfold nextPowerOf2.
    rewrite (wrap_id (n - 1)) by (unfold in_range, minInt, maxInt in *; lia).
    pose proof (smear_negative (n - 1) ltac:(lia)) as Hs.
    rewrite wrap_id by (unfold in_range, minInt, maxInt in *; lia). lia.
Qed.

End NextPowerOf2.

Lemma is_pow2_pos p : is_pow2 p -> 0 < p.
Proof. intros [k [Hk ->]]. apply Z.pow_pos_nonneg; lia. Qed.

Example nextPowerOf2_examples :
  nextPowerOf2 1 = 1 /\ nextPowerOf2 5 = 8 /\ nextPowerOf2 8 = 8 /\
  nextPowerOf2 9 = 16 /\ nextPowerOf2 (2 ^ 32) = 2 ^ 32 /\
  nextPowerOf2 (2 ^ 32 + 1) = 2 ^ 33 - 1.
Proof. vm_compute. repeat split. Qed.

(** C1, as stated, fails at zero: the specification promises
    [nextPowerOf2 0 = 1] ("never 0"), the code decrements to [-1], whose
    arithmetic shifts are all [-1], and increments back to [0], which is not
    a power of two. *)
Lemma nextPowerOf2_zero_counterexample :
  nextPowerOf2 0 = 0 /\ nextPowerOf2 0 <> 1 /\ ~ pow2_ceiling 0 (nextPowerOf2 0).
Proof.
  split; [reflexivity|]. split; [discriminate|].
  intros [Hp _]. apply is_pow2_pos in Hp. vm_compute in Hp. discriminate.
Qed.

(** C1 (amended): for every [n] with [1 <= n <= 2^32], [nextPowerOf2 n] is
    the smallest power of two greater than or equal to [n] (1 -> 1, 5 -> 8,
    8 -> 8, 9 -> 16); at 0 it returns 0, and for no input at or below zero
    does it return 1: the result is then at most 0. *)
Theorem nextPowerOf2_amended :
  (forall n, 1 <= n <= 2 ^ 32 -> pow2_ceiling n (nextPowerOf2 n)) /\
  (nextPowerOf2 1 = 1 /\ nextPowerOf2 5 = 8 /\ nextPowerOf2 8 = 8 /\
   nextPowerOf2 9 = 16) /\
  nextPowerOf2 0 = 0 /\
  (forall n, minInt <= n <= 0 -> nextPowerOf2 n <= 0).
Proof.
  split; [|split; [|split]].
  - intros n Hn. destruct (Z.eq_dec n 1) as [->|].
    + change (nextPowerOf2 1) with 1. apply pow2_ceiling_one. lia.
    + apply nextPowerOf2_ceiling. lia.
  - vm_compute. repeat split.
  - reflexivity.
  - apply nextPowerOf2_nonpos.
Qed.

Lemma nextPowerOf2_amended_witness :
  pow2_ceiling 5 (nextPowerOf2 5) /\ nextPowerOf2 (-3) <= 0.
Proof.
  split.
  - apply (proj1 nextPowerOf2_amended 5). lia.
  - apply (proj2 (proj2 (proj2 nextPowerOf2_amended)) (-3)).
    unfold minInt. lia.
Defined.

(** C10: the shifts propagate 32 bits only.  For every [n] with
    [2 <= n <= 2^32] the result is the least power of two at or above [n];
    but some [n] above [2^32] that a 64-bit [int] holds is sent to a value
    below [n] that is not its power-of-two ceiling. *)
Theorem nextPowerOf2_32_bits_only :
  (forall n, 2 <= n <= 2 ^ 32 -> pow2_ceiling n (nextPowerOf2 n)) /\
  (exists n, 2 ^ 32 < n <= maxInt /\
             nextPowerOf2 n < n /\ ~ pow2_ceiling n (nextPowerOf2 n)).
Proof.
  split; [apply nextPowerOf2_ceiling|].
  exists maxInt. split; [unfold maxInt; lia|].
  assert (Hv : nextPowerOf2 maxInt = minInt) by (vm_compute; reflexivity).
  rewrite Hv. split; [unfold minInt, maxInt; lia|].
  intros [Hp _]. apply is_pow2_pos in Hp. unfold minInt in Hp. lia.
Qed.

Lemma nextPowerOf2_32_bits_only_witness : pow2_ceiling 9 (nextPowerOf2 9).
Proof. apply (proj1 nextPowerOf2_32_bits_only 9). lia. Defined.


(** ** The reload decision *)

Ltac munfold :=
  unfold run, result, after, mbind, M_bind, mret, M_ret in *.

Section ReloadDecision.

Variable E : Env.
Variable P : Pkg.
Variable n : NGINXController.

Lemma os_Open_frame name w :
  files (after (os_Open E name) w) = files w /\
  trace (after (os_Open E name) w) = trace w.
Proof.
  unfold after, os_Open.
  destruct (files w !! name); [destruct (open_err E w name)|]; simpl; auto.
Qed.

Lemma os_Open_ok name w h w1 :
  run (os_Open E name) w = ((h, None), w1) ->
  h = name /\ is_Some (files w !! name) /\
  files w1 = files w /\ trace w1 = trace w.
Proof.
  unfold run, os_Open.
  destruct (files w !! name) eqn:Hf; [destruct (open_err E w name)|];
    intros [= <- <-]; eauto.
Qed.

Lemma ioutil_ReadAll_frame h w :
  files (after (ioutil_ReadAll E h) w) = files w /\
  trace (after (ioutil_ReadAll E h) w) = trace w.
Proof.
  unfold after, ioutil_ReadAll. destruct (read_err E w h); simpl; auto.
Qed.

Lemma ioutil_ReadAll_ok h w src w1 :
  run (ioutil_ReadAll E h) w = ((src, None), w1) ->
  src = default [] (files w !! h) /\
  files w1 = files w /\ trace w1 = trace w.
Proof.
  unfold run, ioutil_ReadAll.
  destruct (read_err E w h); intros [= <- <-]; auto.
Qed.

Lemma readCommitted_frame w :
  files (after (readCommitted E) w) = files w /\
  trace (after (readCommitted E) w) = trace w.
Proof.
  unfold readCommitted. munfold.
  pose proof (os_Open_frame cfgPath w) as Ho. unfold after in Ho.
  destruct (os_Open E cfgPath w) as [[h [e|]] w1]; simpl in *; [exact Ho|].
  pose proof (ioutil_ReadAll_frame h w1) as Hr. unfold after in Hr.
  destruct Ho as [Ho1 Ho2].
  destruct (ioutil_ReadAll E h w1) as [[src [e|]] w2]; simpl in *;
    destruct Hr as [Hr1 Hr2]; split; congruence.
Qed.

(** What is read is what the file system holds at the committed path. *)
Lemma readCommitted_Some w src w1 :
  run (readCommitted E) w = (Some src, w1) ->
  files w !! cfgPath = Some src /\ files w1 = files w /\ trace w1 = trace w.
Proof.
  intros Hrc. unfold readCommitted in Hrc. munfold.
  destruct (os_Open E cfgPath w) as [[h [e|]] w0] eqn:Ho; simpl in Hrc;
    [discriminate|].
  apply os_Open_ok in Ho as (-> & [content Hc] & Hf0 & Ht0).
  destruct (ioutil_ReadAll E cfgPath w0) as [[src' [e|]] w2] eqn:Hr;
    simpl in Hrc; [discriminate|].
  injection Hrc as <- <-.
  apply ioutil_ReadAll_ok in Hr as (Hsrc & Hf2 & Ht2).
  rewrite Hf0, Hc in Hsrc. simpl in Hsrc. subst src'.
  repeat split; congruence.
Qed.

(** An unreadable committed file ends the decision with [false]. *)
Lemma isReloadRequired_unread data w :
  result (readCommitted E) w = None ->
  run (isReloadRequired E P n data) w = (false, after (readCommitted E) w).
Proof.
  unfold isReloadRequired, readCommitted. munfold.
  destruct (os_Open E cfgPath w) as [[h [e|]] w0]; simpl; [reflexivity|].
  destruct (ioutil_ReadAll E h w0) as [[src [e|]] w2]; simpl;
    [reflexivity|discriminate].
Qed.

Lemma isReloadRequired_same data w w1 :
  run (readCommitted E) w = (Some data, w1) ->
  run (isReloadRequired E P n data) w = (false, w1).
Proof.
  unfold isReloadRequired, readCommitted. munfold.
  destruct (os_Open E cfgPath w) as [[h [e|]] w0]; simpl; [discriminate|].
  destruct (ioutil_ReadAll E h w0) as [[src [e|]] w2]; simpl;
    [discriminate|].
  intros [= -> ->]. unfold bytes_Equal.
  rewrite bool_decide_eq_true_2 by reflexivity. reflexivity.
Qed.

(** When what is read differs from the candidate, the decision is that of
    the temporary-file and [diff] lines. *)
Lemma isReloadRequired_differs data w src w1 :
  run (readCommitted E) w = (Some src, w1) ->
  src <> data ->
  run (isReloadRequired E P n data) w =
  run ('(tmpfile, err) ← ioutil_TempFile E "" "nginx-cfg-diff";
       match err with Some _ => mret false | None =>
       err ← ioutil_WriteFile E tmpfile data;
       match err with Some _ => mret false | None =>
       '(diffOutput, err) ← diff P src data;
       match err with Some _ => mret true | None =>
       mret (0 <? len_bytes diffOutput)
       end end end) w1.
Proof.
  unfold isReloadRequired, readCommitted. munfold.
  destruct (os_Open E cfgPath w) as [[h [e|]] w0]; simpl; [discriminate|].
  destruct (ioutil_ReadAll E h w0) as [[src' [e|]] w2]; simpl;
    [discriminate|].
  intros [= -> ->] Hne. unfold bytes_Equal.
  rewrite bool_decide_eq_false_2 by exact Hne. reflexivity.
Qed.

Lemma isReloadRequired_no_temp data w src w1 nm e w2 :
  run (readCommitted E) w = (Some src, w1) ->
  src <> data ->
  run (ioutil_TempFile E "" "nginx-cfg-diff") w1 = ((nm, Some e), w2) ->
  run (isReloadRequired E P n data) w = (false, w2).
Proof.
  intros Hrc Hne Htmp. rewrite (isReloadRequired_differs _ _ _ _ Hrc Hne).
  munfold. rewrite Htmp. reflexivity.
Qed.

Lemma isReloadRequired_no_write data w src w1 nm w2 e w3 :
  run (readCommitted E) w = (Some src, w1) ->
  src <> data ->
  run (ioutil_TempFile E "" "nginx-cfg-diff") w1 = ((nm, None), w2) ->
  run (ioutil_WriteFile E nm data) w2 = (Some e, w3) ->
  run (isReloadRequired E P n data) w = (false, w3).
Proof.
  intros Hrc Hne Htmp Hwr. rewrite (isReloadRequired_differs _ _ _ _ Hrc Hne).
  munfold. rewrite Htmp. simpl. rewrite Hwr. reflexivity.
Qed.

Lemma isReloadRequired_diffed data w src w1 nm w2 w3 out err w4 :
  run (readCommitted E) w = (Some src, w1) ->
  src <> data ->
  run (ioutil_TempFile E "" "nginx-cfg-diff") w1 = ((nm, None), w2) ->
  run (ioutil_WriteFile E nm data) w2 = (None, w3) ->
  run (diff P src data) w3 = ((out, err), w4) ->
  run (isReloadRequired E P n data) w =
  (match err with Some _ => true | None => 0 <? len_bytes out end, w4).
Proof.
  intros Hrc Hne Htmp Hwr Hdiff.
  rewrite (isReloadRequired_differs _ _ _ _ Hrc Hne).
  munfold. rewrite Htmp. simpl. rewrite Hwr. simpl. rewrite Hdiff.
  destruct err; reflexivity.
Qed.

End ReloadDecision.

Lemma readCommitted_missing E w :
  files w !! cfgPath = None -> result (readCommitted E) w = None.
Proof.
  intros Hf. unfold readCommitted, os_Open. munfold. rewrite Hf. reflexivity.
Qed.

(** C2, as stated, fails on a first run: with no committed file and an
    environment in which nothing else goes wrong, [isReloadRequired] answers
    [false], not "reload required". *)
Lemma isReloadRequired_first_run_counterexample :
  files Scenario.fresh !! cfgPath = None /\
  result (isReloadRequired Scenario.quiet Scenario.pkg Scenario.ctl
            Scenario.newConf) Scenario.fresh = false.
Proof. split; vm_compute; reflexivity. Qed.

(** C2 (amended): for every candidate, if the committed configuration file
    cannot be opened or read (first run, file missing), [isReloadRequired]
    does not fail: it reports [false], no reload required, and changes no
    file and performs no effect. *)
Theorem isReloadRequired_unreadable_is_false E P n data w :
  files w !! cfgPath = None \/ result (readCommitted E) w = None ->
  result (isReloadRequired E P n data) w = false /\
  files (after (isReloadRequired E P n data) w) = files w /\
  trace (after (isReloadRequired E P n data) w) = trace w.
Proof.
  intros Hcannot.
  assert (Hnone : result (readCommitted E) w = None)
    by (destruct Hcannot as [Hf|H]; [apply readCommitted_missing|]; assumption).
  pose proof (isReloadRequired_unread E P n data w Hnone) as Hrun.
  unfold result, after, run in *. rewrite Hrun. simpl.
  split; [reflexivity|]. apply readCommitted_frame.
Qed.

Lemma isReloadRequired_unreadable_is_false_witness :
  files Scenario.fresh !! cfgPath = None /\
  result (isReloadRequired Scenario.quiet Scenario.pkg Scenario.ctl
            Scenario.newConf) Scenario.fresh = false.
Proof.
  split; [reflexivity|].
  apply (isReloadRequired_unreadable_is_false Scenario.quiet Scenario.pkg
           Scenario.ctl Scenario.newConf Scenario.fresh).
  left. reflexivity.
Defined.

(** C4, as stated, fails: the committed bytes and the candidate differ, yet
    the answer is [false], once because the temporary file for the diff
    report cannot be created, once because [diff] printed nothing. The diff
    output is part of the decision. *)
Lemma isReloadRequired_byte_equality_counterexample :
  files Scenario.live !! cfgPath = Some Scenario.oldConf /\
  Scenario.oldConf <> Scenario.newConf /\
  result (isReloadRequired Scenario.noTemp Scenario.pkg Scenario.ctl
            Scenario.newConf) Scenario.live = false /\
  result (isReloadRequired Scenario.quiet Scenario.pkgDiffSilent Scenario.ctl
            Scenario.newConf) Scenario.live = false.
Proof.
  split; [vm_compute; reflexivity|]. split; [discriminate|].
  split; vm_compute; reflexivity.
Qed.

(** C4 (amended): when the committed configuration reads as [src],
    [isReloadRequired] is [false] if the candidate is byte-identical to
    [src]; if they differ and the temporary file for the diff report is
    created and written, the answer is [true] exactly when [diff] fails or
    prints a non-empty output: the diff output decides. *)
Theorem isReloadRequired_decision E P n data w src w1 :
  run (readCommitted E) w = (Some src, w1) ->
  (src = data -> run (isReloadRequired E P n data) w = (false, w1)) /\
  (src <> data ->
   forall nm w2 w3 out err w4,
     run (ioutil_TempFile E "" "nginx-cfg-diff") w1 = ((nm, None), w2) ->
     run (ioutil_WriteFile E nm data) w2 = (None, w3) ->
     run (diff P src data) w3 = ((out, err), w4) ->
     run (isReloadRequired E P n data) w =
     (match err with Some _ => true | None => 0 <? len_bytes out end, w4)).
Proof.
  intros Hrc. split.
  - intros <-. apply isReloadRequired_same. exact Hrc.
  - intros Hne nm w2 w3 out err w4 Htmp Hwr Hdiff.
    eapply isReloadRequired_diffed; eassumption.
Qed.

Lemma isReloadRequired_decision_witness :
  result (isReloadRequired Scenario.quiet Scenario.pkg Scenario.ctl
            Scenario.newConf) Scenario.live = true /\
  result (isReloadRequired Scenario.quiet Scenario.pkg Scenario.ctl
            Scenario.oldConf) Scenario.live = false.
Proof.
  split.
  - exact (f_equal fst
      (proj2 (isReloadRequired_decision Scenario.quiet Scenario.pkg Scenario.ctl
                Scenario.newConf Scenario.live Scenario.oldConf _ eq_refl)
         ltac:(discriminate) _ _ _ _ None _ eq_refl eq_refl eq_refl)).
  - exact (f_equal fst
      (proj1 (isReloadRequired_decision Scenario.quiet Scenario.pkg Scenario.ctl
                Scenario.oldConf Scenario.live Scenario.oldConf _ eq_refl)
         eq_refl)).
Defined.

(** C7: for differing committed and candidate bytes, once the diff is
    computed (the committed file was read and the report file created and
    written) and fails, [isReloadRequired] reports [true]. *)
Theorem isReloadRequired_diff_failure E P n data w src w1 nm w2 w3 out e w4 :
  run (readCommitted E) w = (Some src, w1) ->
  src <> data ->
  run (ioutil_TempFile E "" "nginx-cfg-diff") w1 = ((nm, None), w2) ->
  run (ioutil_WriteFile E nm data) w2 = (None, w3) ->
  run (diff P src data) w3 = ((out, Some e), w4) ->
  run (isReloadRequired E P n data) w = (true, w4).
Proof.
  intros Hrc Hne Htmp Hwr Hdiff.
  apply (isReloadRequired_diffed E P n data w src w1 nm w2 w3 out (Some e) w4);
    assumption.
Qed.

Lemma isReloadRequired_diff_failure_witness :
  result (isReloadRequired Scenario.quiet Scenario.pkgDiffFails Scenario.ctl
            Scenario.newConf) Scenario.live = true.
Proof.
  exact (f_equal fst
    (isReloadRequired_diff_failure Scenario.quiet Scenario.pkgDiffFails
       Scenario.ctl Scenario.newConf Scenario.live Scenario.oldConf
       _ _ _ _ _ _ _ eq_refl ltac:(discriminate) eq_refl eq_refl eq_refl)).
Defined.

(** C9: for a candidate that differs from the committed bytes, a failure to
    create the temporary file of the diff report, or to write it, makes
    [isReloadRequired] return [false]: the reload is suppressed. *)
Theorem isReloadRequired_tempfile_failure E P n data w src w1 :
  run (readCommitted E) w = (Some src, w1) ->
  src <> data ->
  (forall nm e w2,
     run (ioutil_TempFile E "" "nginx-cfg-diff") w1 = ((nm, Some e), w2) ->
     run (isReloadRequired E P n data) w = (false, w2)) /\
  (forall nm w2 e w3,
     run (ioutil_TempFile E "" "nginx-cfg-diff") w1 = ((nm, None), w2) ->
     run (ioutil_WriteFile E nm data) w2 = (Some e, w3) ->
     run (isReloadRequired E P n data) w = (false, w3)).
Proof.
  intros Hrc Hne. split.
  - intros nm e w2 Htmp. eapply isReloadRequired_no_temp; eassumption.
  - intros nm w2 e w3 Htmp Hwr. eapply isReloadRequired_no_write; eassumption.
Qed.

Lemma isReloadRequired_tempfile_failure_witness :
  result (isReloadRequired Scenario.noTemp Scenario.pkg Scenario.ctl
            Scenario.newConf) Scenario.live = false /\
  result (isReloadRequired Scenario.noTempWrite Scenario.pkg Scenario.ctl
            Scenario.newConf) Scenario.live = false.
Proof.
  split.
  - exact (f_equal fst
      (proj1 (isReloadRequired_tempfile_failure Scenario.noTemp Scenario.pkg
                Scenario.ctl Scenario.newConf Scenario.live Scenario.oldConf
                _ eq_refl ltac:(discriminate)) _ _ _ eq_refl)).
  - exact (f_equal fst
      (proj2 (isReloadRequired_tempfile_failure Scenario.noTempWrite Scenario.pkg
                Scenario.ctl Scenario.newConf Scenario.live Scenario.oldConf
                _ eq_refl ltac:(discriminate)) _ _ _ _ eq_refl eq_refl)).
Defined.

(** ** Names of temporary files *)

Section TempNames.

Lemma append_cons a s u : String a s +:+ u = String a (s +:+ u).
Proof. reflexivity. Qed.

Lemma append_assoc s u v : (s +:+ u) +:+ v = s +:+ (u +:+ v).
Proof.
  induction s as [|a s IH]; [reflexivity|].
  rewrite !append_cons, IH. reflexivity.
Qed.

Lemma last_char_append s u c :
  last_char u = Some c -> last_char (s +:+ u) = Some c.
Proof.
  intros Hu. induction s as [|a s IH]; [exact Hu|].
  rewrite append_cons. simpl.
  destruct (s +:+ u) eqn:Hs; [discriminate IH|exact IH].
Qed.

Lemma nextSuffix_last r : last_char (nextSuffix r) = Some (digit r).
Proof.
  unfold nextSuffix. change (decimal 9 r) with
    (decimal 8 (r / 10) +:+ String (digit r) EmptyString).
  apply last_char_append. reflexivity.
Qed.

Lemma digit_code r : (48 <= N_of_ascii (digit r) <= 57)%N.
Proof.
  unfold digit.
  assert (Hd : (r mod 10 < 10)%N) by (apply N.mod_lt; discriminate).
  generalize dependent (r mod 10)%N. intros d Hd.
  rewrite N_ascii_embedding by lia. lia.
Qed.

(** A name made by [ioutil.TempFile] ends in a digit, the committed path
    ends in the letter f. *)
Lemma temp_name_not_cfgPath d prefix r :
  d +:+ "/" +:+ prefix +:+ nextSuffix r <> cfgPath.
Proof.
  intros Heq. apply (f_equal last_char) in Heq.
  rewrite (last_char_append d _ (digit r)) in Heq
    by (do 2 apply last_char_append; apply nextSuffix_last).
  change (last_char cfgPath) with (Some "f"%char) in Heq.
  injection Heq as Heq. pose proof (digit_code r) as Hd.
  rewrite Heq in Hd. vm_compute in Hd. destruct Hd as [_ Hd]. apply Hd. reflexivity.
Qed.

End TempNames.

(** ** What each system call does to the files and to the trace *)

Section Calls.

Variable E : Env.

Lemma ioutil_TempFile_ok prefix w nm w1 :
  run (ioutil_TempFile E "" prefix) w = ((nm, None), w1) ->
  nm <> cfgPath /\ files w !! nm = None /\
  files w1 = <[nm := []]> (files w) /\
  trace w1 = EvCreate nm :: trace w.
Proof.
  unfold run, ioutil_TempFile.
  destruct (tempfile_res E w prefix) as [m|r]; [discriminate|].
  destruct (decide ("" = EmptyString)) as [_|Hne]; [|contradiction].
  destruct (files w !! _) eqn:Hf; [discriminate|].
  intros [= <- <-]. split; [apply temp_name_not_cfgPath|]. auto.
Qed.

Lemma ioutil_TempFile_error prefix w nm e w1 :
  run (ioutil_TempFile E "" prefix) w = ((nm, Some e), w1) ->
  (exists m, e = OsError m) /\ files w1 = files w /\ trace w1 = trace w.
Proof.
  unfold run, ioutil_TempFile.
  destruct (tempfile_res E w prefix) as [m|r].
  - intros [= <- <- <-]. eauto.
  - destruct (decide ("" = EmptyString)) as [_|Hne]; [|contradiction].
    destruct (files w !! _) eqn:Hf; [|discriminate].
    intros [= <- <- <-]. eauto.
Qed.

Lemma ioutil_WriteFile_ok f data w w1 :
  run (ioutil_WriteFile E f data) w = (None, w1) ->
  files w1 = <[f := data]> (files w) /\
  trace w1 = EvWrite f data :: trace w.
Proof.
  unfold run, ioutil_WriteFile.
  destruct (write_res E w f data); [|discriminate..].
  intros [= <-]. auto.
Qed.

Lemma ioutil_WriteFile_frame f data w r w1 g :
  run (ioutil_WriteFile E f data) w = (r, w1) ->
  f <> g ->
  files w1 !! g = files w !! g /\ trace w1 = EvWrite f data :: trace w.
Proof.
  unfold run, ioutil_WriteFile. intros Hrun Hne.
  destruct (write_res E w f data); injection Hrun as <- <-; simpl;
    rewrite ?lookup_insert_ne by exact Hne; auto.
Qed.

Lemma os_Remove_frame f w g :
  f <> g ->
  files (after (os_Remove E f) w) !! g = files w !! g.
Proof.
  unfold after, os_Remove. intros Hne.
  destruct (remove_err E w f); simpl; [reflexivity|].
  apply lookup_delete_ne. exact Hne.
Qed.

Lemma os_Remove_trace f w :
  trace (after (os_Remove E f) w) = EvRemove f :: trace w.
Proof. unfold after, os_Remove. destruct (remove_err E w f); reflexivity. Qed.

Lemma os_Remove_gone f w :
  result (os_Remove E f) w = None ->
  files (after (os_Remove E f) w) !! f = None.
Proof.
  unfold result, after, os_Remove.
  destruct (remove_err E w f); simpl; [discriminate|].
  intros _. apply lookup_delete_eq.
Qed.

Lemma CombinedOutput_frame argv w r w1 :
  run (CombinedOutput E argv) w = (r, w1) ->
  files w1 = files w /\ trace w1 = EvExec argv :: trace w.
Proof.
  unfold run, CombinedOutput. destruct (run_res E w argv).
  intros [= <- <-]. auto.
Qed.

End Calls.

(** ** Commit: [Reload] *)

Section Commit.

Variable E : Env.
Variable P : Pkg.
Variable n : NGINXController.

(** With the candidate already committed the decision is [false], whether
    or not the file can be read. *)
Lemma isReloadRequired_committed data w :
  files w !! cfgPath = Some data ->
  result (isReloadRequired E P n data) w = false /\
  files (after (isReloadRequired E P n data) w) = files w /\
  trace (after (isReloadRequired E P n data) w) = trace w.
Proof.
  intros Hf. destruct (readCommitted E w) as [[src|] w1] eqn:Hrc.
  - destruct (readCommitted_Some E w src w1 Hrc) as (Hsrc & Hf1 & Ht1).
    assert (src = data) as -> by congruence.
    pose proof (isReloadRequired_same E P n data w w1 Hrc) as Hrun.
    unfold result, after, run in *. rewrite Hrun. auto.
  - assert (Hnone : result (readCommitted E) w = None)
      by (unfold result; rewrite Hrc; reflexivity).
    pose proof (isReloadRequired_unread E P n data w Hnone) as Hrun.
    unfold result, after, run in *. rewrite Hrun. simpl.
    split; [reflexivity|]. apply readCommitted_frame.
Qed.

Lemma Reload_not_required data w w1 :
  run (isReloadRequired E P n data) w = (false, w1) ->
  run (Reload E P n data) w = (notRequired, w1).
Proof. unfold Reload. munfold. intros ->. reflexivity. Qed.

Lemma Reload_committed data w :
  files w !! cfgPath = Some data ->
  result (Reload E P n data) w = notRequired /\
  files (after (Reload E P n data) w) = files w /\
  trace (after (Reload E P n data) w) = trace w.
Proof.
  intros Hf. destruct (isReloadRequired_committed data w Hf) as (Hr & Hfs & Htr).
  unfold result, after in *.
  destruct (isReloadRequired E P n data w) as [b w1] eqn:Hrun.
  simpl in *. subst b.
  pose proof (Reload_not_required data w w1 Hrun) as Hre. unfold run in Hre.
  rewrite Hre. auto.
Qed.

(** A [Reload] that returns no error has written the candidate to the
    committed path and then signalled the running process. *)
Lemma Reload_success data w out w1 :
  run (Reload E P n data) w = ((out, None), w1) ->
  files w1 !! cfgPath = Some data /\
  exists tr,
    trace w1 = EvExec [binary n; "-s"; "reload"] :: EvWrite cfgPath data :: tr.
Proof.
  unfold Reload. munfold.
  destruct (isReloadRequired E P n data w) as [[|] w0]; simpl; [|discriminate].
  destruct (ioutil_WriteFile E cfgPath data w0) as [[e|] w2] eqn:Hwr; simpl;
    [discriminate|].
  intros Hex. apply ioutil_WriteFile_ok in Hwr as [Hf2 Ht2].
  apply CombinedOutput_frame in Hex as [Hf1 Ht1].
  split.
  - rewrite Hf1, Hf2. apply lookup_insert_eq.
  - exists (trace w0). rewrite Ht1, Ht2. reflexivity.
Qed.

End Commit.

(** C3, as stated, fails: with the candidate byte-identical to the committed
    configuration [Reload] writes nothing and signals nothing, but it does
    not return success: it returns the error "Reload not required". *)
Lemma Reload_unchanged_counterexample :
  files Scenario.live !! cfgPath = Some Scenario.oldConf /\
  snd (result (Reload Scenario.quiet Scenario.pkg Scenario.ctl Scenario.oldConf)
         Scenario.live) = Some (ErrorString "Reload not required") /\
  snd (result (Reload Scenario.quiet Scenario.pkg Scenario.ctl Scenario.oldConf)
         Scenario.live) <> None.
Proof.
  split; [vm_compute; reflexivity|].
  split; [vm_compute; reflexivity|]. vm_compute. discriminate.
Qed.

(** C3 (amended): for every candidate byte-identical to the committed
    configuration, [Reload] performs no write to the committed path and no
    reload signal, leaves every file as it was, and returns no output
    together with the error "Reload not required".  After a [Reload] that
    returned without error (one write of the candidate, then one reload
    signal), repeating it with the same candidate performs no write and no
    signal. *)
Theorem Reload_unchanged_is_noop E P n data :
  (forall w,
     files w !! cfgPath = Some data ->
     result (Reload E P n data) w = ([], Some (ErrorString "Reload not required")) /\
     files (after (Reload E P n data) w) = files w /\
     trace (after (Reload E P n data) w) = trace w) /\
  (forall w out w1,
     run (Reload E P n data) w = ((out, None), w1) ->
     (exists tr,
        trace w1 = EvExec [binary n; "-s"; "reload"] :: EvWrite cfgPath data :: tr) /\
     result (Reload E P n data) w1 = ([], Some (ErrorString "Reload not required")) /\
     files (after (Reload E P n data) w1) = files w1 /\
     trace (after (Reload E P n data) w1) = trace w1).
Proof.
  split.
  - intros w Hf. apply Reload_committed. exact Hf.
  - intros w out w1 Hrun.
    destruct (Reload_success E P n data w out w1 Hrun) as [Hf Htr].
    split; [exact Htr|]. apply Reload_committed. exact Hf.
Qed.

Lemma Reload_unchanged_is_noop_witness :
  trace (after (Reload Scenario.quiet Scenario.pkg Scenario.ctl Scenario.oldConf)
           Scenario.live) = [] /\
  trace (after (Reload Scenario.quiet Scenario.pkg Scenario.ctl Scenario.newConf)
           (after (Reload Scenario.quiet Scenario.pkg Scenario.ctl Scenario.newConf)
              Scenario.live)) =
  trace (after (Reload Scenario.quiet Scenario.pkg Scenario.ctl Scenario.newConf)
           Scenario.live).
Proof.
  split.
  - exact (proj2 (proj2 (proj1
      (Reload_unchanged_is_noop Scenario.quiet Scenario.pkg Scenario.ctl
         Scenario.oldConf) Scenario.live eq_refl))).
  - exact (proj2 (proj2 (proj2 (proj2
      (Reload_unchanged_is_noop Scenario.quiet Scenario.pkg Scenario.ctl
         Scenario.newConf) Scenario.live [] _ eq_refl)))).
Defined.

(** ** Validation: [testTemplate] and [OnUpdate] *)

Section Validation.

Variable E : Env.
Variable n : NGINXController.

Lemma testTemplate_no_temp cfg w nm e w1 :
  run (ioutil_TempFile E "" "nginx-cfg") w = ((nm, Some e), w1) ->
  run (testTemplate E n cfg) w = (Some e, w1).
Proof. unfold testTemplate. munfold. intros ->. reflexivity. Qed.

Lemma testTemplate_invalid cfg w nm w1 werr w2 out e w3 :
  run (ioutil_TempFile E "" "nginx-cfg") w = ((nm, None), w1) ->
  run (ioutil_WriteFile E nm cfg) w1 = (werr, w2) ->
  run (CombinedOutput E (Test n nm)) w2 = ((out, Some e), w3) ->
  run (testTemplate E n cfg) w = (Some (errors_New (invalidMessage e out)), w3).
Proof.
  unfold testTemplate. munfold. intros -> Hwr Hex. simpl.
  rewrite Hwr, Hex. reflexivity.
Qed.

Lemma testTemplate_valid cfg w nm w1 werr w2 out w3 :
  run (ioutil_TempFile E "" "nginx-cfg") w = ((nm, None), w1) ->
  run (ioutil_WriteFile E nm cfg) w1 = (werr, w2) ->
  run (CombinedOutput E (Test n nm)) w2 = ((out, None), w3) ->
  run (testTemplate E n cfg) w = (None, after (os_Remove E nm) w3).
Proof.
  unfold testTemplate. munfold. intros -> Hwr Hex. simpl.
  rewrite Hwr, Hex. simpl. destruct (os_Remove E nm w3). reflexivity.
Qed.

(** Whatever happens, validation leaves the committed path alone. *)
Lemma testTemplate_frame cfg w :
  files (after (testTemplate E n cfg) w) !! cfgPath = files w !! cfgPath.
Proof.
  destruct (ioutil_TempFile E "" "nginx-cfg" w) as [[nm [e|]] w1] eqn:Htmp.
  - pose proof (testTemplate_no_temp cfg w nm e w1 Htmp) as Hrun.
    unfold after, run in *. rewrite Hrun. simpl.
    apply ioutil_TempFile_error in Htmp as (_ & -> & _). reflexivity.
  - destruct (ioutil_WriteFile E nm cfg w1) as [werr w2] eqn:Hwr.
    destruct (CombinedOutput E (Test n nm) w2) as [[out e] w3] eqn:Hex.
    apply ioutil_TempFile_ok in Htmp as Hok.
    destruct Hok as (Hne & _ & Hf1 & _).
    destruct (ioutil_WriteFile_frame E nm cfg w1 werr w2 cfgPath Hwr Hne) as [Hf2 _].
    destruct (CombinedOutput_frame E _ w2 _ w3 Hex) as [Hf3 _].
    assert (Hkeep : files w3 !! cfgPath = files w !! cfgPath).
    { rewrite Hf3, Hf2, Hf1. apply lookup_insert_ne. exact Hne. }
    destruct e as [e|].
    + pose proof (testTemplate_invalid cfg w nm w1 werr w2 out e w3 Htmp Hwr Hex)
        as Hrun.
      unfold after, run in *. rewrite Hrun. exact Hkeep.
    + pose proof (testTemplate_valid cfg w nm w1 werr w2 out w3 Htmp Hwr Hex)
        as Hrun.
      unfold run in Hrun. unfold after at 1. rewrite Hrun. simpl.
      rewrite os_Remove_frame by exact Hne. exact Hkeep.
Qed.

Lemma invalidMessage_carries_output e out :
  exists pre post,
    invalidMessage e out = pre +:+ string_of_list_byte out +:+ post.
Proof.
  exists (LF +:+ rule +:+ LF +:+ "Error: " +:+ Error e +:+ LF),
         (LF +:+ rule +:+ LF).
  unfold invalidMessage. rewrite !append_assoc. reflexivity.
Qed.

Variable P : Pkg.

Lemma OnUpdate_run cmap ingressCfg w :
  run (OnUpdate E P n cmap ingressCfg) w =
  match run (testTemplate E n (candidate P n cmap ingressCfg w)) w with
  | (Some e, w') => (([], Some e), w')
  | (None, w') => ((candidate P n cmap ingressCfg w, None), w')
  end.
Proof.
  unfold OnUpdate, Template_Write, candidate. munfold.
  destruct (testTemplate E n _ w) as [[e|] w']; reflexivity.
Qed.

Lemma OnUpdate_frame cmap ingressCfg w :
  files (after (OnUpdate E P n cmap ingressCfg) w) !! cfgPath =
  files w !! cfgPath.
Proof.
  pose proof (OnUpdate_run cmap ingressCfg w) as Hrun.
  pose proof (testTemplate_frame (candidate P n cmap ingressCfg w) w) as Hfr.
  unfold after, run in *. rewrite Hrun.
  destruct (testTemplate E n _ w) as [[e|] w']; exact Hfr.
Qed.

End Validation.

(** C5: when the checker rejects the rendered candidate, [OnUpdate] (with
    [testTemplate] as the validation callback) returns an error whose text
    carries the checker's output, and the committed configuration file is
    after the call what it was before. *)
Theorem OnUpdate_invalid_keeps_committed
    E P n cmap ingressCfg w nm w1 werr w2 out e w3 :
  run (ioutil_TempFile E "" "nginx-cfg") w = ((nm, None), w1) ->
  run (ioutil_WriteFile E nm (candidate P n cmap ingressCfg w)) w1 = (werr, w2) ->
  run (CombinedOutput E (Test n nm)) w2 = ((out, Some e), w3) ->
  result (OnUpdate E P n cmap ingressCfg) w =
    ([], Some (ErrorString (invalidMessage e out))) /\
  (exists pre post,
     invalidMessage e out = pre +:+ string_of_list_byte out +:+ post) /\
  files (after (OnUpdate E P n cmap ingressCfg) w) !! cfgPath = files w !! cfgPath.
Proof.
  intros Htmp Hwr Hex. split; [|split].
  - pose proof (OnUpdate_run E n P cmap ingressCfg w) as Hrun.
    rewrite (testTemplate_invalid E n _ w nm w1 werr w2 out e w3 Htmp Hwr Hex)
      in Hrun.
    unfold result, run in *. rewrite Hrun. reflexivity.
  - apply invalidMessage_carries_output.
  - apply OnUpdate_frame.
Qed.

Lemma OnUpdate_invalid_keeps_committed_witness :
  result (OnUpdate Scenario.rejecting Scenario.pkg Scenario.ctl ∅ Scenario.oneServer)
    Scenario.live =
    ([], Some (ErrorString (invalidMessage (OsError "exit status 1")
                 (list_byte_of_string "nginx: [emerg] unexpected end of file")))) /\
  files (after (OnUpdate Scenario.rejecting Scenario.pkg Scenario.ctl ∅
                  Scenario.oneServer) Scenario.live) !! cfgPath =
  files Scenario.live !! cfgPath.
Proof.
  pose proof (OnUpdate_invalid_keeps_committed Scenario.rejecting Scenario.pkg
                Scenario.ctl ∅ Scenario.oneServer Scenario.live
                _ _ _ _ _ _ _ eq_refl eq_refl eq_refl) as (Hres & _ & Hfiles).
  split; [exact Hres | exact Hfiles].
Defined.

(** C8: on the success path [testTemplate] ends by removing the temporary
    file it created (the file is gone unless the operating system refuses
    the removal); a failure to create the temporary file is returned as it
    is, an error of the operating system, with nothing written or run, and
    it is never of the shape of a "configuration is invalid" error, which is
    built by [errors.New] around the checker's output. *)
Theorem testTemplate_cleanup_and_environment_error E n cfg w :
  (forall nm w1 werr w2 out w3,
     run (ioutil_TempFile E "" "nginx-cfg") w = ((nm, None), w1) ->
     run (ioutil_WriteFile E nm cfg) w1 = (werr, w2) ->
     run (CombinedOutput E (Test n nm)) w2 = ((out, None), w3) ->
     result (testTemplate E n cfg) w = None /\
     trace (after (testTemplate E n cfg) w) =
       EvRemove nm :: EvExec (Test n nm) :: EvWrite nm cfg :: EvCreate nm :: trace w /\
     (result (os_Remove E nm) w3 = None ->
      files (after (testTemplate E n cfg) w) !! nm = None)) /\
  (forall nm e w1,
     run (ioutil_TempFile E "" "nginx-cfg") w = ((nm, Some e), w1) ->
     result (testTemplate E n cfg) w = Some e /\
     trace (after (testTemplate E n cfg) w) = trace w /\
     files (after (testTemplate E n cfg) w) = files w /\
     forall e' out, e <> ErrorString (invalidMessage e' out)) /\
  (forall nm w1 werr w2 out e w3,
     run (ioutil_TempFile E "" "nginx-cfg") w = ((nm, None), w1) ->
     run (ioutil_WriteFile E nm cfg) w1 = (werr, w2) ->
     run (CombinedOutput E (Test n nm)) w2 = ((out, Some e), w3) ->
     result (testTemplate E n cfg) w = Some (ErrorString (invalidMessage e out))).
Proof.
  split; [|split].
  - intros nm w1 werr w2 out w3 Htmp Hwr Hex.
    pose proof (testTemplate_valid E n cfg w nm w1 werr w2 out w3 Htmp Hwr Hex)
      as Hrun.
    assert (Hres : result (testTemplate E n cfg) w = None)
      by (unfold result, run in *; rewrite Hrun; reflexivity).
    assert (Haft : after (testTemplate E n cfg) w = after (os_Remove E nm) w3)
      by (unfold after at 1; unfold run in Hrun; rewrite Hrun; reflexivity).
    rewrite Haft. split; [exact Hres|]. split.
    + rewrite os_Remove_trace.
      apply ioutil_TempFile_ok in Htmp as (Hne & _ & _ & Ht1).
      assert (nm <> cfgPath) as Hne' by exact Hne.
      destruct (ioutil_WriteFile_frame E nm cfg w1 werr w2 cfgPath Hwr Hne')
        as [_ Ht2].
      destruct (CombinedOutput_frame E _ w2 _ w3 Hex) as [_ Ht3].
      rewrite Ht3, Ht2, Ht1. reflexivity.
    + apply os_Remove_gone.
  - intros nm e w1 Htmp.
    pose proof (testTemplate_no_temp E n cfg w nm e w1 Htmp) as Hrun.
    unfold result, after, run in *. rewrite Hrun. simpl.
    apply ioutil_TempFile_error in Htmp as ([m ->] & Hf & Ht).
    repeat split; try assumption. intros e' out. discriminate.
  - intros nm w1 werr w2 out e w3 Htmp Hwr Hex.
    pose proof (testTemplate_invalid E n cfg w nm w1 werr w2 out e w3 Htmp Hwr Hex)
      as Hrun.
    unfold result, run in *. rewrite Hrun. reflexivity.
Qed.

Lemma testTemplate_cleanup_and_environment_error_witness :
  files (after (testTemplate Scenario.quiet Scenario.ctl Scenario.newConf)
           Scenario.live) !! "/tmp/nginx-cfg000000000" = None /\
  result (testTemplate Scenario.noTemp Scenario.ctl Scenario.newConf)
    Scenario.live = Some (OsError "open /tmp/nginx-cfg: no space left on device").
Proof.
  split.
  - exact (proj2 (proj2 (proj1
      (testTemplate_cleanup_and_environment_error Scenario.quiet Scenario.ctl
         Scenario.newConf Scenario.live) _ _ _ _ _ _ eq_refl eq_refl eq_refl))
      eq_refl).
  - exact (proj1 (proj1 (proj2
      (testTemplate_cleanup_and_environment_error Scenario.noTemp Scenario.ctl
         Scenario.newConf Scenario.live)) _ _ _ eq_refl)).
Defined.

(** ** Sizing in [OnUpdate] *)

Section Sizing.

Lemma len_bytes_of_string s :
  len_bytes (list_byte_of_string s) = len_string s.
Proof.
  unfold len_bytes, len_string, list_byte_of_string. f_equal.
  rewrite length_map. induction s as [|a s IH]; simpl; congruence.
Qed.

Lemma len_string_nonneg s : 0 <= len_string s.
Proof. unfold len_string. lia. Qed.

Lemma longestHostname_nonneg servers : 0 <= longestHostname servers.
Proof. induction servers as [|srv l IH]; simpl; lia. Qed.

Lemma totalHostnames_nonneg servers : 0 <= totalHostnames servers.
Proof.
  induction servers as [|srv l IH]; simpl; [lia|].
  pose proof (len_string_nonneg (Hostname srv)). lia.
Qed.

(** The loop computes the maximum and, short of overflow, the sum. *)
Lemma countName_fold servers longest total :
  0 <= longest -> 0 <= total ->
  total + totalHostnames servers <= maxInt ->
  fold_left countName servers (longest, total) =
  (Z.max longest (longestHostname servers), total + totalHostnames servers).
Proof.
  revert longest total.
  induction servers as [|srv l IH]; intros longest total Hl H0 Hmax; simpl.
  - f_equal; lia.
  - pose proof (len_string_nonneg (Hostname srv)) as Hlen.
    pose proof (totalHostnames_nonneg l) as Htot.
    simpl in Hmax. rewrite len_bytes_of_string.
    rewrite wrap_id by (unfold in_range, minInt, maxInt in *; lia).
    rewrite IH by (try destruct (Z.ltb_spec longest (len_string (Hostname srv))); lia).
    f_equal; [|lia].
    destruct (Z.ltb_spec longest (len_string (Hostname srv))); lia.
Qed.

Lemma adjustSizes_max longest total cfg :
  config.ServerNameHashBucketSize (adjustSizes longest total cfg) =
    Z.max (config.ServerNameHashBucketSize cfg) (nextPowerOf2 longest) /\
  config.ServerNameHashMaxSize (adjustSizes longest total cfg) =
    Z.max (config.ServerNameHashMaxSize cfg) (nextPowerOf2 total) /\
  config.CustomHTTPErrors (adjustSizes longest total cfg) =
    config.CustomHTTPErrors cfg.
Proof.
  unfold adjustSizes. rewrite !Z.gtb_ltb.
  destruct (Z.ltb_spec (config.ServerNameHashBucketSize cfg) (nextPowerOf2 longest));
    simpl;
    destruct (Z.ltb_spec (config.ServerNameHashMaxSize cfg) (nextPowerOf2 total));
    simpl; repeat split; lia.
Qed.

Lemma effectiveCfg_unfold P cmap ingressCfg :
  totalHostnames (ingress.Servers ingressCfg) <= maxInt ->
  effectiveCfg P cmap ingressCfg =
  adjustSizes (longestHostname (ingress.Servers ingressCfg))
              (totalHostnames (ingress.Servers ingressCfg))
              (ReadConfig P cmap).
Proof.
  intros Hmax. unfold effectiveCfg.
  rewrite countName_fold by lia.
  rewrite Z.max_r by apply longestHostname_nonneg. reflexivity.
Qed.

End Sizing.




(** * Further properties of the sizing function *)

Section CeilingFacts.

Lemma pow2_ceiling_unique n p q : pow2_ceiling n p -> pow2_ceiling n q -> p = q.
Proof.
  intros (Hp & Hnp & Hpmin) (Hq & Hnq & Hqmin).
  pose proof (Hpmin q Hq Hnq). pose proof (Hqmin p Hp Hnp). lia.
Qed.

Lemma pow2_ceiling_self k : 0 <= k -> pow2_ceiling (2 ^ k) (2 ^ k).
Proof.
  intros Hk. split; [exists k; auto|]. split; [lia|]. intros q _ Hq. exact Hq.
Qed.

(** A power-of-two ceiling is less than twice its argument. *)
Lemma pow2_ceiling_lt_double n p : 1 <= n -> pow2_ceiling n p -> p < 2 * n.
Proof.
  intros Hn ([j [Hj ->]] & Hnp & Hmin).
  destruct (Z.eq_dec j 0) as [->|Hj0]; [simpl; lia|].
  assert (Hhalf : 2 ^ j = 2 * 2 ^ (j - 1)).
  { rewrite <- Z.pow_succ_r by lia. f_equal. lia. }
  destruct (Z_lt_le_dec (2 ^ (j - 1)) n) as [Hlt|Hge]; [lia|].
  assert (2 ^ j <= 2 ^ (j - 1)).
  { apply Hmin; [exists (j - 1); split; [lia|reflexivity]|exact Hge]. }
  assert (0 < 2 ^ (j - 1)) by (apply Z.pow_pos_nonneg; lia). lia.
Qed.

Lemma nextPowerOf2_ceiling_from_1 n :
  1 <= n <= 2 ^ 32 -> pow2_ceiling n (nextPowerOf2 n).
Proof.
  intros Hn. destruct (Z.eq_dec n 1) as [->|].
  - change (nextPowerOf2 1) with 1. apply pow2_ceiling_one. lia.
  - apply nextPowerOf2_ceiling. lia.
Qed.

Lemma lor_nonneg_lower a b : 0 <= a -> 0 <= b -> a <= Z.lor a b.
Proof.
  intros Ha Hb.
  assert (Hd : Z.ldiff a (Z.lor a b) = 0).
  { apply Z.bits_inj'. intros i Hi.
    rewrite Z.ldiff_spec, Z.lor_spec, Z.bits_0.
    destruct (Z.testbit a i), (Z.testbit b i); reflexivity. }
  pose proof (Z.sub_nocarry_ldiff _ _ Hd) as Hsub.
  assert (0 <= Z.lor a b) by (apply Z.lor_nonneg; lia).
  assert (0 <= Z.ldiff (Z.lor a b) a) by (apply Z.ldiff_nonneg; lia).
  lia.
Qed.

Lemma or_shift_bounds s v k :
  0 <= s -> 0 <= k -> 0 <= v < 2 ^ k -> v <= or_shift s v < 2 ^ k.
Proof.
  intros Hs Hk Hv. unfold or_shift.
  pose proof (shiftr_below v s k Hs Hv) as Hsh.
  pose proof (lor_below_pow2 v (Z.shiftr v s) k Hk Hv Hsh).
  pose proof (lor_nonneg_lower v (Z.shiftr v s) ltac:(lia) ltac:(lia)). lia.
Qed.

Lemma smear_bounds v k : 0 <= k -> 0 <= v < 2 ^ k -> v <= smear v < 2 ^ k.
Proof.
  intros Hk Hv. unfold smear.
  set (v1 := or_shift 1 v). set (v2 := or_shift 2 v1).
  set (v4 := or_shift 4 v2). set (v8 := or_shift 8 v4).
  assert (H1 : v <= v1 < 2 ^ k) by (apply or_shift_bounds; lia).
  assert (H2 : v1 <= v2 < 2 ^ k) by (apply or_shift_bounds; lia).
  assert (H4 : v2 <= v4 < 2 ^ k) by (apply or_shift_bounds; lia).
  assert (H8 : v4 <= v8 < 2 ^ k) by (apply or_shift_bounds; lia).
  assert (H16 : v8 <= or_shift 16 v8 < 2 ^ k) by (apply or_shift_bounds; lia).
  lia.
Qed.

Lemma nextPowerOf2_covers n : 0 <= n <= 2 ^ 62 -> n <= nextPowerOf2 n <= 2 ^ 62.
Proof.
  intros Hn. destruct (Z.eq_dec n 0) as [->|Hn0]; [vm_compute; split; discriminate|].
  unfold nextPowerOf2.
  rewrite (wrap_id (n - 1)) by (unfold in_range, minInt, maxInt; lia).
  pose proof (smear_bounds (n - 1) 62 ltac:(lia) ltac:(lia)) as Hs.
  rewrite wrap_id by (unfold in_range, minInt, maxInt; lia). lia.
Qed.

Lemma nextPowerOf2_mono_upto a b :
  0 <= a <= b -> b <= 2 ^ 32 -> nextPowerOf2 a <= nextPowerOf2 b.
Proof.
  intros Hab Hb. destruct (Z.eq_dec a 0) as [->|Ha].
  - change (nextPowerOf2 0) with 0.
    pose proof (nextPowerOf2_covers b ltac:(lia)). lia.
  - destruct (nextPowerOf2_ceiling_from_1 a ltac:(lia)) as (_ & _ & Hmin).
    destruct (nextPowerOf2_ceiling_from_1 b ltac:(lia)) as (Hp & Hle & _).
    apply Hmin; [exact Hp|lia].
Qed.

End CeilingFacts.

(** X1: between 1 and [2^32] the result is at least the argument and less
    than twice the argument. *)
Theorem nextPowerOf2_within_factor_two n :
  1 <= n <= 2 ^ 32 -> n <= nextPowerOf2 n < 2 * n.
Proof.
  intros Hn. pose proof (nextPowerOf2_ceiling_from_1 n Hn) as Hc.
  pose proof (pow2_ceiling_lt_double n _ ltac:(lia) Hc).
  destruct Hc as (_ & Hle & _). lia.
Qed.

Lemma nextPowerOf2_within_factor_two_witness :
  37 <= nextPowerOf2 37 < 2 * 37.
Proof. apply nextPowerOf2_within_factor_two. lia. Defined.

(** X2: every power of two up to [2^32] is a fixed point, and on
    [0 .. 2^32] applying the function twice is applying it once. *)
Theorem nextPowerOf2_fixed_points :
  (forall k, 0 <= k <= 32 -> nextPowerOf2 (2 ^ k) = 2 ^ k) /\
  (forall n, 0 <= n <= 2 ^ 32 -> nextPowerOf2 (nextPowerOf2 n) = nextPowerOf2 n).
Proof.
  assert (Hfix : forall k, 0 <= k <= 32 -> nextPowerOf2 (2 ^ k) = 2 ^ k).
  { intros k Hk.
    assert (1 <= 2 ^ k <= 2 ^ 32).
    { split; [change 1 with (2 ^ 0)|]; apply Z.pow_le_mono_r; lia. }
    apply (pow2_ceiling_unique (2 ^ k));
      [apply nextPowerOf2_ceiling_from_1; assumption|apply pow2_ceiling_self; lia]. }
  split; [exact Hfix|]. intros n Hn.
  destruct (Z.eq_dec n 0) as [->|Hn0]; [reflexivity|].
  pose proof (nextPowerOf2_ceiling_from_1 n ltac:(lia)) as Hc.
  pose proof (pow2_ceiling_lt_double n _ ltac:(lia) Hc) as Hlt.
  destruct Hc as ([j [Hj Hp]] & _ & _). rewrite Hp in *.
  apply Hfix. split; [lia|].
  destruct (Z_lt_le_dec 32 j) as [Hbig|]; [|lia].
  assert (2 ^ 33 <= 2 ^ j) by (apply Z.pow_le_mono_r; lia). lia.
Qed.

Lemma nextPowerOf2_fixed_points_witness :
  nextPowerOf2 (2 ^ 6) = 2 ^ 6 /\ nextPowerOf2 (nextPowerOf2 37) = nextPowerOf2 37.
Proof.
  split.
  - apply (proj1 nextPowerOf2_fixed_points 6). lia.
  - apply (proj2 nextPowerOf2_fixed_points 37). lia.
Defined.

(** X3: on [0 .. 2^32] the function is monotone. *)
Theorem nextPowerOf2_monotone a b :
  0 <= a <= b -> b <= 2 ^ 32 -> nextPowerOf2 a <= nextPowerOf2 b.
Proof. apply nextPowerOf2_mono_upto. Qed.

Lemma nextPowerOf2_monotone_witness : nextPowerOf2 5 <= nextPowerOf2 37.
Proof. apply nextPowerOf2_monotone; lia. Defined.

(** X4: up to [2^62], also above [2^32] where the result need not be a
    power of two, the result is never below the argument and does not
    overflow. *)
Theorem nextPowerOf2_never_undersizes n :
  0 <= n <= 2 ^ 62 -> n <= nextPowerOf2 n <= 2 ^ 62.
Proof. apply nextPowerOf2_covers. Qed.

Lemma nextPowerOf2_never_undersizes_witness :
  2 ^ 40 + 1 <= nextPowerOf2 (2 ^ 40 + 1) <= 2 ^ 62.
Proof. apply nextPowerOf2_never_undersizes. lia. Defined.

(** * Further properties of the sizing in [OnUpdate] *)

Section SizingFacts.

Lemma longestHostname_le_total servers :
  longestHostname servers <= totalHostnames servers.
Proof.
  induction servers as [|srv l IH]; simpl; [lia|].
  pose proof (len_string_nonneg (Hostname srv)).
  pose proof (totalHostnames_nonneg l). lia.
Qed.

Lemma longestHostname_member servers srv :
  In srv servers -> len_string (Hostname srv) <= longestHostname servers.
Proof.
  induction servers as [|s l IH]; simpl; [contradiction|].
  intros [->|Hin]; [lia|]. specialize (IH Hin). lia.
Qed.

Lemma longestHostname_perm l l' :
  Permutation l l' -> longestHostname l = longestHostname l'.
Proof. induction 1; simpl; lia. Qed.

Lemma totalHostnames_perm l l' :
  Permutation l l' -> totalHostnames l = totalHostnames l'.
Proof. induction 1; simpl; lia. Qed.

Lemma longestHostname_app l more :
  longestHostname (l ++ more) = Z.max (longestHostname l) (longestHostname more).
Proof.
  induction l as [|s l IH]; simpl.
  - pose proof (longestHostname_nonneg more). lia.
  - rewrite IH. lia.
Qed.

Lemma totalHostnames_app l more :
  totalHostnames (l ++ more) = totalHostnames l + totalHostnames more.
Proof. induction l as [|s l IH]; simpl; lia. Qed.

End SizingFacts.

(** X5: when the hostnames together are at most [2^62] bytes long, the
    bucket size handed to the template is at least the byte length of every
    hostname, and the maximum size is at least the byte length of all
    hostnames together. *)
Theorem OnUpdate_sizes_fit P cmap ingressCfg :
  totalHostnames (ingress.Servers ingressCfg) <= 2 ^ 62 ->
  let cfg := effectiveCfg P cmap ingressCfg in
  (forall srv, In srv (ingress.Servers ingressCfg) ->
     len_string (Hostname srv) <= config.ServerNameHashBucketSize cfg) /\
  totalHostnames (ingress.Servers ingressCfg) <= config.ServerNameHashMaxSize cfg.
Proof.
  intros Hmax cfg. subst cfg.
  rewrite effectiveCfg_unfold by (unfold maxInt; lia).
  set (servers := ingress.Servers ingressCfg) in *.
  destruct (adjustSizes_max (longestHostname servers) (totalHostnames servers)
              (ReadConfig P cmap)) as (Hb & Hm & _).
  rewrite Hb, Hm.
  pose proof (longestHostname_le_total servers) as Hlt.
  pose proof (longestHostname_nonneg servers) as Hl0.
  pose proof (totalHostnames_nonneg servers) as Ht0.
  pose proof (nextPowerOf2_covers (longestHostname servers) ltac:(lia)).
  pose proof (nextPowerOf2_covers (totalHostnames servers) ltac:(lia)).
  split; [|lia].
  intros srv Hin. pose proof (longestHostname_member servers srv Hin). lia.
Qed.

Lemma OnUpdate_sizes_fit_witness :
  37 <= config.ServerNameHashBucketSize
          (effectiveCfg Scenario.pkgSmallBase ∅ Scenario.twoServersCfg) /\
  42 <= config.ServerNameHashMaxSize
          (effectiveCfg Scenario.pkgSmallBase ∅ Scenario.twoServersCfg).
Proof.
  assert (Hmax : totalHostnames Scenario.twoServers <= 2 ^ 62)
    by (vm_compute; discriminate).
  destruct (OnUpdate_sizes_fit Scenario.pkgSmallBase ∅ Scenario.twoServersCfg Hmax)
    as [Hb Hm].
  split; [|exact Hm].
  apply (Hb {| Hostname := "averyveryverylonghostname.example.com"; Locations := [] |}).
  right. left. reflexivity.
Defined.

(** X6: the configuration handed to the template does not depend on the
    order of the servers. *)
Theorem effectiveCfg_order_independent P cmap ingressCfg ingressCfg' :
  Permutation (ingress.Servers ingressCfg) (ingress.Servers ingressCfg') ->
  totalHostnames (ingress.Servers ingressCfg) <= maxInt ->
  effectiveCfg P cmap ingressCfg = effectiveCfg P cmap ingressCfg'.
Proof.
  intros Hperm Hmax.
  pose proof (longestHostname_perm _ _ Hperm) as Hl.
  pose proof (totalHostnames_perm _ _ Hperm) as Ht.
  rewrite !effectiveCfg_unfold by lia. rewrite Hl, Ht. reflexivity.
Qed.

Lemma effectiveCfg_order_independent_witness :
  effectiveCfg Scenario.pkgSmallBase ∅ Scenario.twoServersCfg =
  effectiveCfg Scenario.pkgSmallBase ∅
    {| ingress.Backends := [];
       ingress.Servers := rev Scenario.twoServers;
       ingress.TCPEndpoints := [];
       ingress.UPDEndpoints := [];
       ingress.PassthroughBackends := [] |}.
Proof.
  apply effectiveCfg_order_independent.
  - apply Permutation_rev.
  - vm_compute. discriminate.
Defined.

(** X7: with more servers neither size gets smaller, as long as the
    hostnames together are at most [2^32] bytes long. *)
Theorem effectiveCfg_grows_with_servers P cmap ingressCfg ingressCfg' more :
  ingress.Servers ingressCfg' = ingress.Servers ingressCfg ++ more ->
  totalHostnames (ingress.Servers ingressCfg') <= 2 ^ 32 ->
  config.ServerNameHashBucketSize (effectiveCfg P cmap ingressCfg) <=
    config.ServerNameHashBucketSize (effectiveCfg P cmap ingressCfg') /\
  config.ServerNameHashMaxSize (effectiveCfg P cmap ingressCfg) <=
    config.ServerNameHashMaxSize (effectiveCfg P cmap ingressCfg').
Proof.
  intros Hmore Hmax. rewrite Hmore in Hmax.
  pose proof (totalHostnames_app (ingress.Servers ingressCfg) more) as Ht.
  pose proof (longestHostname_app (ingress.Servers ingressCfg) more) as Hl.
  pose proof (totalHostnames_nonneg more).
  pose proof (totalHostnames_nonneg (ingress.Servers ingressCfg)).
  pose proof (longestHostname_nonneg (ingress.Servers ingressCfg)).
  pose proof (longestHostname_le_total (ingress.Servers ingressCfg ++ more)).
  rewrite !effectiveCfg_unfold by (rewrite ?Hmore; unfold maxInt; lia).
  rewrite Hmore.
  destruct (adjustSizes_max (longestHostname (ingress.Servers ingressCfg))
              (totalHostnames (ingress.Servers ingressCfg)) (ReadConfig P cmap))
    as (-> & -> & _).
  destruct (adjustSizes_max (longestHostname (ingress.Servers ingressCfg ++ more))
              (totalHostnames (ingress.Servers ingressCfg ++ more)) (ReadConfig P cmap))
    as (-> & -> & _).
  pose proof (nextPowerOf2_mono_upto (longestHostname (ingress.Servers ingressCfg))
                (longestHostname (ingress.Servers ingressCfg ++ more))
                ltac:(lia) ltac:(lia)).
  pose proof (nextPowerOf2_mono_upto (totalHostnames (ingress.Servers ingressCfg))
                (totalHostnames (ingress.Servers ingressCfg ++ more))
                ltac:(lia) ltac:(lia)).
  lia.
Qed.

Lemma effectiveCfg_grows_with_servers_witness :
  config.ServerNameHashBucketSize
    (effectiveCfg Scenario.pkgSmallBase ∅ Scenario.oneServer) <=
  config.ServerNameHashBucketSize
    (effectiveCfg Scenario.pkgSmallBase ∅
       {| ingress.Backends := [];
          ingress.Servers := ingress.Servers Scenario.oneServer ++ Scenario.twoServers;
          ingress.TCPEndpoints := [];
          ingress.UPDEndpoints := [];
          ingress.PassthroughBackends := [] |}).
Proof.
  refine (proj1 (effectiveCfg_grows_with_servers Scenario.pkgSmallBase ∅
                   Scenario.oneServer
                   {| ingress.Backends := [];
                      ingress.Servers :=
                        ingress.Servers Scenario.oneServer ++ Scenario.twoServers;
                      ingress.TCPEndpoints := [];
                      ingress.UPDEndpoints := [];
                      ingress.PassthroughBackends := [] |}
                   Scenario.twoServers eq_refl _)).
  vm_compute. discriminate.
Defined.

(** * Further properties of the reload decision and of [Reload] *)

Section DecisionFacts.

Variable E : Env.
Variable P : Pkg.
Variable n : NGINXController.

(** [true] is only ever answered about a committed file that exists and
    differs from the candidate. *)
Lemma isReloadRequired_true_inv data w :
  result (isReloadRequired E P n data) w = true ->
  exists src, files w !! cfgPath = Some src /\ src <> data.
Proof.
  intros Htrue. destruct (readCommitted E w) as [[src|] w1] eqn:Hrc.
  - destruct (readCommitted_Some E w src w1 Hrc) as (Hsrc & _ & _).
    exists src. split; [exact Hsrc|]. intros ->.
    pose proof (isReloadRequired_same E P n data w w1 Hrc) as Hrun.
    unfold result, run in *. rewrite Hrun in Htrue. discriminate.
  - assert (Hnone : result (readCommitted E) w = None)
      by (unfold result; rewrite Hrc; reflexivity).
    pose proof (isReloadRequired_unread E P n data w Hnone) as Hrun.
    unfold result, run in *. rewrite Hrun in Htrue. discriminate.
Qed.

Lemma isReloadRequired_frame_existing data w path :
  diff_keeps_files P ->
  is_Some (files w !! path) ->
  files (after (isReloadRequired E P n data) w) !! path = files w !! path.
Proof.
  intros Hdiff Hsome. destruct (readCommitted E w) as [[src|] w1] eqn:Hrc.
  - destruct (readCommitted_Some E w src w1 Hrc) as (_ & Hf1 & _).
    destruct (decide (src = data)) as [->|Hne].
    + pose proof (isReloadRequired_same E P n data w w1 Hrc) as Hrun.
      unfold after, run in *. rewrite Hrun. simpl. rewrite Hf1. reflexivity.
    + pose proof (isReloadRequired_differs E P n data w src w1 Hrc Hne) as Hrun.
      unfold after. unfold run in Hrun. rewrite Hrun. clear Hrun. munfold.
      destruct (ioutil_TempFile E "" "nginx-cfg-diff" w1) as [[nm [e|]] w2] eqn:Htmp;
        simpl.
      * apply ioutil_TempFile_error in Htmp as (_ & -> & _). rewrite Hf1. reflexivity.
      * apply ioutil_TempFile_ok in Htmp as (_ & Hfresh & Hf2 & _).
        assert (Hnp : nm <> path).
        { intros ->. rewrite Hf1 in Hfresh. rewrite Hfresh in Hsome.
          destruct Hsome as [? ?]. discriminate. }
        destruct (ioutil_WriteFile E nm data w2) as [werr w3] eqn:Hwr.
        destruct (ioutil_WriteFile_frame E nm data w2 werr w3 path Hwr Hnp) as [Hf3 _].
        assert (Hkeep : files w3 !! path = files w !! path).
        { rewrite Hf3, Hf2, lookup_insert_ne by exact Hnp. rewrite Hf1. reflexivity. }
        destruct werr as [e|]; simpl; [exact Hkeep|].
        pose proof (Hdiff src data w3) as Hd. unfold after in Hd.
        destruct (diff P src data w3) as [[out [e|]] w4]; simpl in *;
          rewrite Hd; exact Hkeep.
  - assert (Hnone : result (readCommitted E) w = None)
      by (unfold result; rewrite Hrc; reflexivity).
    pose proof (isReloadRequired_unread E P n data w Hnone) as Hrun.
    unfold after, run in *. rewrite Hrun. simpl.
    pose proof (readCommitted_frame E w) as [Hf _]. unfold after in Hf.
    rewrite Hf. reflexivity.
Qed.

End DecisionFacts.

(** X8: [isReloadRequired] answers [true] only when the committed file
    exists and its bytes differ from the candidate. *)
Theorem isReloadRequired_true_only_if_differs E P n data w :
  result (isReloadRequired E P n data) w = true ->
  exists src, files w !! cfgPath = Some src /\ src <> data.
Proof. apply isReloadRequired_true_inv. Qed.

Lemma isReloadRequired_true_only_if_differs_witness :
  exists src, files Scenario.live !! cfgPath = Some src /\ src <> Scenario.newConf.
Proof.
  apply (isReloadRequired_true_only_if_differs Scenario.quiet Scenario.pkg
           Scenario.ctl Scenario.newConf Scenario.live).
  reflexivity.
Defined.

(** X9: if [diff] leaves the files alone, [isReloadRequired] changes no file
    that existed before the call, whatever fails on the way. *)
Theorem isReloadRequired_keeps_existing_files E P n data w path :
  diff_keeps_files P ->
  is_Some (files w !! path) ->
  files (after (isReloadRequired E P n data) w) !! path = files w !! path.
Proof. apply isReloadRequired_frame_existing. Qed.

Lemma isReloadRequired_keeps_existing_files_witness :
  files (after (isReloadRequired Scenario.quiet Scenario.pkg Scenario.ctl
                  Scenario.newConf) Scenario.live) !! cfgPath =
  Some Scenario.oldConf.
Proof.
  refine (isReloadRequired_keeps_existing_files Scenario.quiet Scenario.pkg
            Scenario.ctl Scenario.newConf Scenario.live cfgPath _ _).
  - intros a b w. reflexivity.
  - exists Scenario.oldConf. reflexivity.
Defined.

(** X10: the temporary file made for the diff report is never removed: when
    the bytes differ and the file is created and written, after the call a
    file that did not exist before holds the candidate (if [diff] leaves the
    files alone). *)
Theorem isReloadRequired_leaves_report_file E P n data w src w1 nm w2 w3 :
  diff_keeps_files P ->
  run (readCommitted E) w = (Some src, w1) ->
  src <> data ->
  run (ioutil_TempFile E "" "nginx-cfg-diff") w1 = ((nm, None), w2) ->
  run (ioutil_WriteFile E nm data) w2 = (None, w3) ->
  files w !! nm = None /\
  files (after (isReloadRequired E P n data) w) !! nm = Some data.
Proof.
  intros Hdiff Hrc Hne Htmp Hwr.
  destruct (readCommitted_Some E w src w1 Hrc) as (_ & Hf1 & _).
  destruct (diff P src data w3) as [[out err] w4] eqn:Hd.
  pose proof (isReloadRequired_diffed E P n data w src w1 nm w2 w3 out err w4
                Hrc Hne Htmp Hwr Hd) as Hrun.
  apply ioutil_TempFile_ok in Htmp as (_ & Hfresh & _ & _).
  apply ioutil_WriteFile_ok in Hwr as [Hf3 _].
  split; [rewrite <- Hf1; exact Hfresh|].
  unfold after, run in *. rewrite Hrun. simpl.
  pose proof (Hdiff src data w3) as Hk. unfold after in Hk. rewrite Hd in Hk.
  simpl in Hk. rewrite Hk, Hf3. apply lookup_insert_eq.
Qed.

Lemma isReloadRequired_leaves_report_file_witness :
  files Scenario.live !! "/tmp/nginx-cfg-diff000000002" = None /\
  files (after (isReloadRequired Scenario.quiet Scenario.pkg Scenario.ctl
                  Scenario.newConf) Scenario.live)
    !! "/tmp/nginx-cfg-diff000000002" = Some Scenario.newConf.
Proof.
  exact (isReloadRequired_leaves_report_file Scenario.quiet Scenario.pkg
           Scenario.ctl Scenario.newConf Scenario.live Scenario.oldConf
           _ _ _ _ (fun _ _ _ => eq_refl) eq_refl ltac:(discriminate)
           eq_refl eq_refl).
Defined.

Section CommitFacts.

Variable E : Env.
Variable P : Pkg.
Variable n : NGINXController.

Lemma Reload_required data w w0 :
  run (isReloadRequired E P n data) w = (true, w0) ->
  run (Reload E P n data) w =
  run (err ← ioutil_WriteFile E cfgPath data;
       match err with
       | Some e => mret ([], Some e)
       | None => CombinedOutput E [binary n; "-s"; "reload"]
       end) w0.
Proof. unfold Reload. munfold. intros ->. reflexivity. Qed.

Lemma Reload_error_free_inv data w out w1 :
  run (Reload E P n data) w = ((out, None), w1) ->
  result (isReloadRequired E P n data) w = true.
Proof.
  unfold Reload. munfold.
  destruct (isReloadRequired E P n data w) as [[|] w0]; simpl;
    [reflexivity|discriminate].
Qed.

End CommitFacts.

(** X11: on a first run, with no committed file, [Reload] writes nothing and
    signals nothing; it returns the error "Reload not required". *)
Theorem Reload_first_run_writes_nothing E P n data w :
  files w !! cfgPath = None ->
  result (Reload E P n data) w = ([], Some (ErrorString "Reload not required")) /\
  files (after (Reload E P n data) w) = files w /\
  trace (after (Reload E P n data) w) = trace w.
Proof.
  intros Hmiss.
  pose proof (isReloadRequired_unread E P n data w (readCommitted_missing E w Hmiss))
    as Hrun.
  pose proof (Reload_not_required E P n data w _ Hrun) as Hre.
  unfold result, after, run in *. rewrite Hre. simpl.
  split; [reflexivity|]. apply readCommitted_frame.
Qed.

Lemma Reload_first_run_writes_nothing_witness :
  files (after (Reload Scenario.quiet Scenario.pkg Scenario.ctl Scenario.newConf)
           Scenario.fresh) = ∅.
Proof.
  exact (proj1 (proj2 (Reload_first_run_writes_nothing Scenario.quiet Scenario.pkg
                         Scenario.ctl Scenario.newConf Scenario.fresh eq_refl))).
Defined.

(** X12: when a reload is required and writing the committed path fails,
    [Reload] returns that error and no output, and sends no reload signal:
    the write attempt is its last effect. *)
Theorem Reload_write_failure_sends_no_signal E P n data w w0 e w1 :
  run (isReloadRequired E P n data) w = (true, w0) ->
  run (ioutil_WriteFile E cfgPath data) w0 = (Some e, w1) ->
  run (Reload E P n data) w = (([], Some e), w1) /\
  trace w1 = EvWrite cfgPath data :: trace w0.
Proof.
  intros Hreq Hwr. rewrite (Reload_required E P n data w w0 Hreq).
  munfold. rewrite Hwr. split; [reflexivity|].
  unfold ioutil_WriteFile in Hwr.
  destruct (write_res E w0 cfgPath data); injection Hwr as _ <-; reflexivity.
Qed.

Lemma Reload_write_failure_sends_no_signal_witness :
  result (Reload Scenario.noCommit Scenario.pkg Scenario.ctl Scenario.newConf)
    Scenario.live = ([], Some (OsError "read-only file system")).
Proof.
  exact (f_equal fst
    (proj1 (Reload_write_failure_sends_no_signal Scenario.noCommit Scenario.pkg
              Scenario.ctl Scenario.newConf Scenario.live _ _ _ eq_refl eq_refl))).
Defined.

(** X13: when the write succeeds and the reload command fails, [Reload]
    returns the command's output and error, and the candidate stays
    committed; a later [Reload] of the same bytes writes nothing and sends
    no signal, so the failed signal is not sent again. *)
Theorem Reload_signal_failure_not_retried E P n data w w0 w1 out e w2 :
  run (isReloadRequired E P n data) w = (true, w0) ->
  run (ioutil_WriteFile E cfgPath data) w0 = (None, w1) ->
  run (CombinedOutput E [binary n; "-s"; "reload"]) w1 = ((out, Some e), w2) ->
  run (Reload E P n data) w = ((out, Some e), w2) /\
  files w2 !! cfgPath = Some data /\
  result (Reload E P n data) w2 = ([], Some (ErrorString "Reload not required")) /\
  trace (after (Reload E P n data) w2) = trace w2.
Proof.
  intros Hreq Hwr Hex.
  assert (Hf : files w2 !! cfgPath = Some data).
  { apply ioutil_WriteFile_ok in Hwr as [Hf1 _].
    apply CombinedOutput_frame in Hex as [Hf2 _].
    rewrite Hf2, Hf1. apply lookup_insert_eq. }
  split; [|split; [exact Hf|]].
  - rewrite (Reload_required E P n data w w0 Hreq). munfold.
    rewrite Hwr. exact Hex.
  - destruct (Reload_committed E P n data w2 Hf) as (Hr & _ & Ht).
    split; [exact Hr|exact Ht].
Qed.

Lemma Reload_signal_failure_not_retried_witness :
  files (after (Reload Scenario.rejecting Scenario.pkg Scenario.ctl Scenario.newConf)
           Scenario.live) !! cfgPath = Some Scenario.newConf /\
  snd (result (Reload Scenario.rejecting Scenario.pkg Scenario.ctl Scenario.newConf)
         Scenario.live) = Some (OsError "exit status 1").
Proof.
  pose proof (Reload_signal_failure_not_retried Scenario.rejecting Scenario.pkg
                Scenario.ctl Scenario.newConf Scenario.live _ _ _ _ _
                eq_refl eq_refl eq_refl) as (Hrun & Hf & _).
  split.
  - unfold after. unfold run in Hrun. rewrite Hrun. exact Hf.
  - unfold result. unfold run in Hrun. rewrite Hrun. reflexivity.
Defined.

(** X14: a [Reload] that returns no error found a committed file whose
    bytes differed from the candidate, and leaves the candidate committed. *)
Theorem Reload_success_replaces_different_config E P n data w out w1 :
  run (Reload E P n data) w = ((out, None), w1) ->
  (exists src, files w !! cfgPath = Some src /\ src <> data) /\
  files w1 !! cfgPath = Some data.
Proof.
  intros Hrun. split.
  - apply (isReloadRequired_true_inv E P n).
    apply (Reload_error_free_inv E P n data w out w1 Hrun).
  - apply (Reload_success E P n data w out w1 Hrun).
Qed.

Lemma Reload_success_replaces_different_config_witness :
  files (after (Reload Scenario.quiet Scenario.pkg Scenario.ctl Scenario.newConf)
           Scenario.live) !! cfgPath = Some Scenario.newConf.
Proof.
  exact (proj2 (Reload_success_replaces_different_config Scenario.quiet Scenario.pkg
                  Scenario.ctl Scenario.newConf Scenario.live [] _ eq_refl)).
Defined.

(** * Further properties of [testTemplate] *)

Section ValidationFacts.

Variable E : Env.
Variable n : NGINXController.

(** The three ways through [testTemplate]. *)
Lemma testTemplate_cases cfg w :
  (exists nm e w1,
     run (ioutil_TempFile E "" "nginx-cfg") w = ((nm, Some e), w1) /\
     run (testTemplate E n cfg) w = (Some e, w1)) \/
  (exists nm w1 werr w2 out e w3,
     run (ioutil_TempFile E "" "nginx-cfg") w = ((nm, None), w1) /\
     run (ioutil_WriteFile E nm cfg) w1 = (werr, w2) /\
     run (CombinedOutput E (Test n nm)) w2 = ((out, Some e), w3) /\
     run (testTemplate E n cfg) w = (Some (errors_New (invalidMessage e out)), w3)) \/
  (exists nm w1 werr w2 out w3,
     run (ioutil_TempFile E "" "nginx-cfg") w = ((nm, None), w1) /\
     run (ioutil_WriteFile E nm cfg) w1 = (werr, w2) /\
     run (CombinedOutput E (Test n nm)) w2 = ((out, None), w3) /\
     run (testTemplate E n cfg) w = (None, after (os_Remove E nm) w3)).
Proof.
  destruct (ioutil_TempFile E "" "nginx-cfg" w) as [[nm [e|]] w1] eqn:Htmp.
  - left. exists nm, e, w1. split; [exact Htmp|].
    apply (testTemplate_no_temp E n cfg w nm e w1 Htmp).
  - destruct (ioutil_WriteFile E nm cfg w1) as [werr w2] eqn:Hwr.
    destruct (CombinedOutput E (Test n nm) w2) as [[out [e|]] w3] eqn:Hex.
    + right. left. exists nm, w1, werr, w2, out, e, w3.
      repeat split; try assumption; try reflexivity.
      apply (testTemplate_invalid E n cfg w nm w1 werr w2 out e w3 Htmp Hwr Hex).
    + right. right. exists nm, w1, werr, w2, out, w3.
      repeat split; try assumption; try reflexivity.
      apply (testTemplate_valid E n cfg w nm w1 werr w2 out w3 Htmp Hwr Hex).
Qed.

Lemma testTemplate_path_trace cfg w nm w1 werr w2 out e w3 :
  run (ioutil_TempFile E "" "nginx-cfg") w = ((nm, None), w1) ->
  run (ioutil_WriteFile E nm cfg) w1 = (werr, w2) ->
  run (CombinedOutput E (Test n nm)) w2 = ((out, e), w3) ->
  nm <> cfgPath /\ files w !! nm = None /\
  trace w3 = EvExec (Test n nm) :: EvWrite nm cfg :: EvCreate nm :: trace w /\
  (forall path, path <> nm -> files w3 !! path = files w !! path) /\
  files w3 !! nm = files w2 !! nm.
Proof.
  intros Htmp Hwr Hex.
  apply ioutil_TempFile_ok in Htmp as (Hne & Hfresh & Hf1 & Ht1).
  destruct (CombinedOutput_frame E _ w2 _ w3 Hex) as [Hf3 Ht3].
  split; [exact Hne|]. split; [exact Hfresh|]. split; [|split].
  - destruct (ioutil_WriteFile_frame E nm cfg w1 werr w2 cfgPath Hwr Hne) as [_ Ht2].
    rewrite Ht3, Ht2, Ht1. reflexivity.
  - intros path Hp.
    destruct (ioutil_WriteFile_frame E nm cfg w1 werr w2 path Hwr ltac:(congruence))
      as [Hf2 _].
    rewrite Hf3, Hf2, Hf1. apply lookup_insert_ne. congruence.
  - rewrite Hf3. reflexivity.
Qed.

End ValidationFacts.

(** X15: [testTemplate] returns no error only after running the checker,
    [binary -t -c file], on a newly created temporary file other than the
    committed path.  Its effects are then exactly: create that file, call
    [WriteFile] on it with the candidate (whether or not that call
    succeeds), run the checker, remove the file. *)
Theorem testTemplate_success_means_checked E n cfg w :
  result (testTemplate E n cfg) w = None ->
  exists nm,
    nm <> cfgPath /\ files w !! nm = None /\
    trace (after (testTemplate E n cfg) w) =
      EvRemove nm :: EvExec [binary n; "-t"; "-c"; nm] :: EvWrite nm cfg ::
      EvCreate nm :: trace w.
Proof.
  intros Hnone.
  destruct (testTemplate_cases E n cfg w)
    as [(nm & e & w1 & _ & Hrun)
       |[(nm & w1 & werr & w2 & out & e & w3 & _ & _ & _ & Hrun)
        |(nm & w1 & werr & w2 & out & w3 & Htmp & Hwr & Hex & Hrun)]];
    unfold result, after, run in *; rewrite Hrun in *; simpl in *;
    try discriminate.
  destruct (testTemplate_path_trace E n cfg w nm w1 werr w2 out None w3 Htmp Hwr Hex)
    as (Hne & Hfresh & Htr & _).
  exists nm. split; [exact Hne|]. split; [exact Hfresh|].
  pose proof (os_Remove_trace E nm w3) as Hrm. unfold after in Hrm.
  rewrite Hrm, Htr. reflexivity.
Qed.

Lemma testTemplate_success_means_checked_witness :
  exists nm,
    nm <> cfgPath /\ files Scenario.live !! nm = None /\
    trace (after (testTemplate Scenario.quiet Scenario.ctl Scenario.newConf)
             Scenario.live) =
      EvRemove nm :: EvExec ["/usr/sbin/nginx"; "-t"; "-c"; nm] ::
      EvWrite nm Scenario.newConf :: EvCreate nm :: [].
Proof.
  exact (testTemplate_success_means_checked Scenario.quiet Scenario.ctl
           Scenario.newConf Scenario.live eq_refl).
Defined.

(** X16: when the checker rejects the candidate the temporary file is not
    removed: running the checker is the last effect, and the file, which
    did not exist before, still holds the candidate. *)
Theorem testTemplate_rejected_leaves_file E n cfg w nm w1 w2 out e w3 :
  run (ioutil_TempFile E "" "nginx-cfg") w = ((nm, None), w1) ->
  run (ioutil_WriteFile E nm cfg) w1 = (None, w2) ->
  run (CombinedOutput E (Test n nm)) w2 = ((out, Some e), w3) ->
  files w !! nm = None /\
  files (after (testTemplate E n cfg) w) !! nm = Some cfg /\
  trace (after (testTemplate E n cfg) w) =
    EvExec [binary n; "-t"; "-c"; nm] :: EvWrite nm cfg :: EvCreate nm :: trace w.
Proof.
  intros Htmp Hwr Hex.
  pose proof (testTemplate_invalid E n cfg w nm w1 None w2 out e w3 Htmp Hwr Hex)
    as Hrun.
  destruct (testTemplate_path_trace E n cfg w nm w1 None w2 out (Some e) w3
              Htmp Hwr Hex) as (_ & Hfresh & Htr & _ & Hnm).
  apply ioutil_WriteFile_ok in Hwr as [Hf2 _].
  unfold after, run in *. rewrite Hrun. simpl.
  split; [exact Hfresh|]. split; [|exact Htr].
  rewrite Hnm, Hf2. apply lookup_insert_eq.
Qed.

Lemma testTemplate_rejected_leaves_file_witness :
  files (after (testTemplate Scenario.rejecting Scenario.ctl Scenario.newConf)
           Scenario.live) !! "/tmp/nginx-cfg000000000" = Some Scenario.newConf.
Proof.
  exact (proj1 (proj2 (testTemplate_rejected_leaves_file Scenario.rejecting
                         Scenario.ctl Scenario.newConf Scenario.live
                         _ _ _ _ _ _ eq_refl eq_refl eq_refl))).
Defined.

(** X17: the result of writing the candidate to the temporary file is not
    looked at.  If the file cannot be opened for writing, the checker runs
    on the empty file [TempFile] created, and if it accepts that file
    [testTemplate] returns no error. *)
Theorem testTemplate_ignores_write_failure E n cfg w nm w1 m out w3 :
  run (ioutil_TempFile E "" "nginx-cfg") w = ((nm, None), w1) ->
  write_res E w1 nm cfg = WriteOpenError m ->
  run (CombinedOutput E (Test n nm)) (after (ioutil_WriteFile E nm cfg) w1) =
    ((out, None), w3) ->
  result (ioutil_WriteFile E nm cfg) w1 = Some (OsError m) /\
  files (after (ioutil_WriteFile E nm cfg) w1) !! nm = Some [] /\
  result (testTemplate E n cfg) w = None.
Proof.
  intros Htmp Hres Hex.
  assert (Hwr : run (ioutil_WriteFile E nm cfg) w1 =
                (Some (OsError m), after (ioutil_WriteFile E nm cfg) w1)).
  { unfold run, after, ioutil_WriteFile. rewrite Hres. reflexivity. }
  pose proof (testTemplate_valid E n cfg w nm w1 _ _ out w3 Htmp Hwr Hex) as Hrun.
  split; [unfold result, ioutil_WriteFile; rewrite Hres; reflexivity|].
  split.
  - apply ioutil_TempFile_ok in Htmp as (_ & _ & Hf1 & _).
    unfold after, ioutil_WriteFile. rewrite Hres. simpl.
    rewrite Hf1. apply lookup_insert_eq.
  - unfold result, run in *. rewrite Hrun. reflexivity.
Qed.

Lemma testTemplate_ignores_write_failure_witness :
  result (testTemplate Scenario.noTempWrite Scenario.ctl Scenario.newConf)
    Scenario.live = None.
Proof.
  exact (proj2 (proj2 (testTemplate_ignores_write_failure Scenario.noTempWrite
                         Scenario.ctl Scenario.newConf Scenario.live
                         _ _ "permission denied" _ _ eq_refl eq_refl eq_refl))).
Defined.

(** X18: whatever fails, [testTemplate] changes no file that existed before
    the call. *)
Theorem testTemplate_keeps_existing_files E n cfg w path :
  is_Some (files w !! path) ->
  files (after (testTemplate E n cfg) w) !! path = files w !! path.
Proof.
  intros Hsome.
  destruct (testTemplate_cases E n cfg w)
    as [(nm & e & w1 & Htmp & Hrun)
       |[(nm & w1 & werr & w2 & out & e & w3 & Htmp & Hwr & Hex & Hrun)
        |(nm & w1 & werr & w2 & out & w3 & Htmp & Hwr & Hex & Hrun)]];
    unfold after at 1; unfold run in Hrun; rewrite Hrun; simpl.
  - apply ioutil_TempFile_error in Htmp as (_ & -> & _). reflexivity.
  - destruct (testTemplate_path_trace E n cfg w nm w1 werr w2 out (Some e) w3
                Htmp Hwr Hex) as (_ & Hfresh & _ & Hkeep & _).
    apply Hkeep. intros ->. rewrite Hfresh in Hsome.
    destruct Hsome as [? ?]. discriminate.
  - destruct (testTemplate_path_trace E n cfg w nm w1 werr w2 out None w3
                Htmp Hwr Hex) as (_ & Hfresh & _ & Hkeep & _).
    assert (Hp : path <> nm).
    { intros ->. rewrite Hfresh in Hsome. destruct Hsome as [? ?]. discriminate. }
    rewrite os_Remove_frame by congruence. apply Hkeep. exact Hp.
Qed.

Lemma testTemplate_keeps_existing_files_witness :
  files (after (testTemplate Scenario.quiet Scenario.ctl Scenario.newConf)
           Scenario.live) !! cfgPath = Some Scenario.oldConf.
Proof.
  refine (testTemplate_keeps_existing_files Scenario.quiet Scenario.ctl
            Scenario.newConf Scenario.live cfgPath _).
  exists Scenario.oldConf. reflexivity.
Defined.

(** X19: the sizing adjustments leave the list of custom error codes as
    [ReadConfig] returned it, so the [CustomErrors] flag handed to the
    template is set exactly when that list is not empty. *)
Theorem OnUpdate_custom_errors_flag P cmap ingressCfg backlog :
  config.CustomHTTPErrors (effectiveCfg P cmap ingressCfg) =
    config.CustomHTTPErrors (ReadConfig P cmap) /\
  (config.CustomErrors (templateConfig ingressCfg backlog
                          (effectiveCfg P cmap ingressCfg)) = true <->
   config.CustomHTTPErrors (ReadConfig P cmap) <> []).
Proof.
  assert (Heq : config.CustomHTTPErrors (effectiveCfg P cmap ingressCfg) =
                config.CustomHTTPErrors (ReadConfig P cmap)).
  { unfold effectiveCfg.
    destruct (fold_left countName (ingress.Servers ingressCfg) (0, 0)) as [l s].
    apply adjustSizes_max. }
  split; [exact Heq|]. unfold templateConfig. simpl. rewrite Heq.
  destruct (config.CustomHTTPErrors (ReadConfig P cmap)) as [|c cs]; simpl.
  - split; [discriminate|]. intros H. contradiction H. reflexivity.
  - split; [discriminate|]. intros _. reflexivity.
Qed.

Lemma OnUpdate_custom_errors_flag_witness :
  config.CustomHTTPErrors (effectiveCfg Scenario.pkg ∅ Scenario.oneServer) = [].
Proof.
  exact (proj1 (OnUpdate_custom_errors_flag Scenario.pkg ∅ Scenario.oneServer 128)).
Defined.
